(** * Lead_Qualifier: classifier, lead/event API and analytics reports

    A shallow embedding of [backend/app.py] and [backend/analytics.py].

    - Python values that travel through JSON (the LLM answer, [Event.data])
      are values of type [json]; Python's [None] is [JNull].  JSON numbers
      are integers in this development; floating point payloads are outside
      the model.
    - Python exceptions are explicit: a computation that may raise returns
      a [result].
    - The two tables of the SQLite database are lists of rows: the leads
      in rowid order, the events in the order they were added, which is
      rowid order as long as SQLite hands out increasing rowids.  A request
      handler is a function from the database to the new database and the
      HTTP outcome.  Storage I/O is assumed reliable.
    - An int that is not a signed 64-bit integer cannot be bound as a
      query parameter: the query raises [OverflowError].  The configurable
      limits of SQLite (the length of a [LIKE] pattern, of a statement, of
      a row) are outside the model.
    - [datetime.now()] is an argument [now] of the handler that reads it. *)

From Stdlib Require Import ZArith List String Ascii Bool Lia.
From Stdlib Require Import QArith Qabs Permutation Sorted DecimalString.
From Stdlib Require OrderedTypeEx.
Import ListNotations.

Local Open Scope string_scope.
Local Open Scope list_scope.
Local Open Scope Z_scope.

Set Warnings "-register-all".

(* ================================================================== *)
(** ** Python values and the operations the code applies to them *)

Module Py.

Inductive json : Type :=
| JNull
| JBool (b : bool)
| JInt (n : Z)
| JStr (s : string)
| JArr (items : list json)
| JObj (fields : list (string * json)).

Inductive exn : Type :=
| TypeError
| KeyError
| ZeroDivisionError
| OverflowError.

Inductive result (A : Type) : Type :=
| Ret (a : A)
| Raise (e : exn).
Arguments Ret {A} a.
Arguments Raise {A} e.

Definition bind {A B : Type} (m : result A) (k : A -> result B) : result B :=
  match m with
  | Ret a => k a
  | Raise e => Raise e
  end.

(** [str(n)] for an int. *)
Definition str_of_int (n : Z) : string :=
  NilZero.string_of_int (Z.to_int n).

(** Truth value of an object in an [if]. *)
Definition truthy (v : json) : bool :=
  match v with
  | JNull => false
  | JBool b => b
  | JInt n => negb (n =? 0)%Z
  | JStr s => negb (s =? "")%string
  | JArr items => match items with [] => false | _ => true end
  | JObj fields => match fields with [] => false | _ => true end
  end.

(** [needle in hay] for two [str]: substring test. *)
Fixpoint str_contains (needle hay : string) : bool :=
  if prefix needle hay then true
  else match hay with
       | EmptyString => false
       | String _ hay' => str_contains needle hay'
       end.

(** Lookup in a dict, first binding of the key. *)
Fixpoint dict_get (key : string) (fields : list (string * json)) : option json :=
  match fields with
  | [] => None
  | (k, v) :: rest => if (k =? key)%string then Some v else dict_get key rest
  end.

Definition is_str (key : string) (v : json) : bool :=
  match v with
  | JStr s => (s =? key)%string
  | _ => false
  end.

(** [key in v] with [key] a str: membership of a key for a dict, of an
    element for a list, substring for a str; the other types are not
    iterable. *)
Definition contains (key : string) (v : json) : result bool :=
  match v with
  | JObj fields =>
      Ret (match dict_get key fields with Some _ => true | None => false end)
  | JArr items => Ret (existsb (is_str key) items)
  | JStr s => Ret (str_contains key s)
  | JNull | JBool _ | JInt _ => Raise TypeError
  end.

(** [v[key]] with [key] a str: only a dict can be indexed by a str. *)
Definition subscript (v : json) (key : string) : result json :=
  match v with
  | JObj fields =>
      match dict_get key fields with
      | Some x => Ret x
      | None => Raise KeyError
      end
  | _ => Raise TypeError
  end.

(** Hashable values, those that can be keys of a dict. *)
Definition hashable (v : json) : bool :=
  match v with
  | JArr _ | JObj _ => false
  | _ => true
  end.

(** [==] on hashable values: [True == 1] and [False == 0]. *)
Definition key_eqb (a b : json) : bool :=
  match a, b with
  | JNull, JNull => true
  | JStr s, JStr t => (s =? t)%string
  | JInt n, JInt m => (n =? m)%Z
  | JBool x, JBool y => Bool.eqb x y
  | JBool x, JInt m => ((if x then 1 else 0) =? m)%Z
  | JInt n, JBool y => (n =? (if y then 1 else 0))%Z
  | _, _ => false
  end.

(** [0 + v] and [acc + v] inside [sum]: ints and bools add, the rest
    raises. *)
Definition add_int (acc : Z) (v : json) : result Z :=
  match v with
  | JInt n => Ret (acc + n)
  | JBool b => Ret (acc + (if b then 1 else 0))
  | _ => Raise TypeError
  end.

Fixpoint sum_from (acc : Z) (vs : list json) : result Z :=
  match vs with
  | [] => Ret acc
  | v :: rest => bind (add_int acc v) (fun acc' => sum_from acc' rest)
  end.

Definition sum (vs : list json) : result Z := sum_from 0 vs.

(** The least magnitude that rounds to no finite float: the largest float
    is [2^1024 - 2^971], and a tie rounds to even. *)
Definition float_overflow : Z := 2 ^ 1024 - 2 ^ 970.
Arguments float_overflow : simpl never.

(** [a / b] for two ints, the quotient in exact arithmetic: the division
    raises when the divisor is 0 and when the quotient is too large for a
    float. *)
Definition true_div (a b : Z) : result Q :=
  if (b =? 0)%Z then Raise ZeroDivisionError
  else if (float_overflow * Z.abs b <=? Z.abs a)%Z then Raise OverflowError
  else Ret (inject_Z a / inject_Z b)%Q.

End Py.

Notation "x <- m ;; k" := (Py.bind m (fun x => k))
  (at level 61, m at next level, right associativity).

(* ================================================================== *)
(** ** [enhance_lead_with_llm] (app.py) *)

Module Classifier.
Import Py.

(** What the body of the [try] block does up to line 99: the OpenAI call,
    the access to the first choice or [json.loads] raises, or [result] is
    bound to the decoded JSON value. *)
Inductive llm_outcome : Type :=
| LlmRaises
| LlmResult (result : json).

Definition in_list (s : string) (l : list string) : bool :=
  existsb (String.eqb s) l.

(** The rule of lines 57-62 and 106-111. *)
Definition rule_quality (size : Z) (source : string) : string :=
  if (size >=? 500) && in_list source ["Referral"; "Trade Show"] then "High"
  else if (size >=? 100) && negb (in_list source ["Organic"]) then "Medium"
  else "Low".

(** The f-string of lines 64 and 113. *)
Definition rule_summary (company industry : string) (size : Z)
    (source : string) : string :=
  "Lead from " ++ company ++ " in " ++ industry ++ " industry with "
    ++ str_of_int size ++ " employees. Source: " ++ source ++ ".".

Definition rule_based (company industry : string) (size : Z)
    (source : string) : json :=
  JObj [("quality", JStr (rule_quality size source));
        ("summary", JStr (rule_summary company industry size source))].

Definition enhance_lead_with_llm (LLM_AVAILABLE : bool) (llm : llm_outcome)
    (name company industry : string) (size : Z) (source : string) : json :=
  if negb LLM_AVAILABLE then rule_based company industry size source
  else
    match llm with
    | LlmResult result => result
    | LlmRaises => rule_based company industry size source
    end.

(** [enhancement['quality']] as read by [load_sample_data]. *)
Definition quality_of (enhancement : json) : result json :=
  subscript enhancement "quality".

Definition tiers : list string := ["High"; "Medium"; "Low"].

Definition quality_in_tiers (enhancement : json) : bool :=
  match quality_of enhancement with
  | Ret (JStr q) => in_list q tiers
  | _ => false
  end.

End Classifier.

(* ================================================================== *)
(** ** The tables (models.py) *)

(** A [DateTime] column: microseconds since the epoch. *)
Definition datetime : Type := Z.

Module LeadModel.
Record row : Type := mk {
  id : Z;
  name : string;
  company : string;
  industry : string;
  size : Z;
  source : string;
  created_at : datetime;
  quality : string;
  summary : option string          (* nullable column *)
}.
End LeadModel.

Module EventModel.
Record row : Type := mk {
  id : Z;
  action : string;
  data : Py.json;                  (* JSON column, [None] is [JNull] *)
  timestamp : datetime
}.
End EventModel.

Record Db : Type := mkDb {
  leads : list LeadModel.row;
  events : list EventModel.row
}.

(** An int that SQLite takes as a parameter and stores in an INTEGER
    column: a signed 64-bit integer. *)
Definition sqlite_int (n : Z) : bool :=
  (- 2 ^ 63 <=? n) && (n <? 2 ^ 63).

Definition max_rowid : Z := 2 ^ 63 - 1.
Arguments max_rowid : simpl never.

(** The integer primary key SQLite gives a row inserted without one: 1 in
    an empty table, else one more than the largest rowid; when the largest
    rowid is [max_rowid] SQLite tries unused rowids at random, and
    [pick_rowid] stands for the one it finds. *)
Definition next_id (pick_rowid : list Z -> Z) (ids : list Z) : Z :=
  match ids with
  | [] => 1
  | id :: rest =>
      let largest := fold_right Z.max id rest in
      if largest =? max_rowid then pick_rowid ids else largest + 1
  end.

(** [db.add(event); db.commit()] for an event built without an id. *)
Definition add_event (pick_rowid : list Z -> Z) (db : Db) (action : string)
    (data : Py.json) (timestamp : datetime) : Db * EventModel.row :=
  let event :=
    EventModel.mk (next_id pick_rowid (map EventModel.id (events db))) action
      data timestamp in
  (mkDb (leads db) (events db ++ [event]), event).

(* ================================================================== *)
(** ** SQL [LIKE] as SQLite evaluates it *)

Module Sql.

Definition lower_ascii (c : ascii) : ascii :=
  let n := N_of_ascii c in
  if ((65 <=? n) && (n <=? 90))%N then ascii_of_N (n + 32) else c.

(** SQL [lower()]: ASCII letters only. *)
Definition lower (s : list ascii) : list ascii := map lower_ascii s.

(** A text as a C string: SQLite reads the operands of [LIKE] up to the
    first NUL. *)
Fixpoint c_text (s : list ascii) : list ascii :=
  match s with
  | [] => []
  | c :: s' => if (c =? "000")%char then [] else c :: c_text s'
  end.

(** A str is its UTF-8 encoding. A byte from 0xC0 on starts a character of
    several bytes, which goes on over the bytes 0x80 to 0xBF after it. *)
Definition lead_byte (c : ascii) : bool := (192 <=? N_of_ascii c)%N.

Definition continuation (c : ascii) : bool :=
  let n := N_of_ascii c in ((128 <=? n) && (n <=? 191))%N.

Fixpoint skip_continuation (txt : list ascii) : list ascii :=
  match txt with
  | [] => []
  | c :: txt' => if continuation c then skip_continuation txt' else txt
  end.

(** The text after the character that starts with the byte [d]. *)
Definition after_char (d : ascii) (txt' : list ascii) : list ascii :=
  if lead_byte d then skip_continuation txt' else txt'.

(** What [%] does: [rest] is tried on the text and on what is left of it
    after each of its characters; [inside] says that the bytes skipped so
    far end inside a character. *)
Fixpoint any (rest : list ascii -> bool) (inside : bool) (txt : list ascii)
    : bool :=
  match txt with
  | [] => rest []
  | d :: txt' =>
      if inside && continuation d then any rest true txt'
      else rest txt || any rest (lead_byte d) txt'
  end.

(** [txt LIKE pat] with no [ESCAPE] clause: [%] matches any run of
    characters, [_] any single character, any other byte itself. *)
Fixpoint like (pat : list ascii) : list ascii -> bool :=
  match pat with
  | [] => fun txt => match txt with [] => true | _ :: _ => false end
  | c :: pat' =>
      if (c =? "%")%char then any (like pat') false
      else if (c =? "_")%char then
        fun txt =>
          match txt with
          | [] => false
          | d :: txt' => like pat' (after_char d txt')
          end
      else
        fun txt =>
          match txt with
          | [] => false
          | d :: txt' => (c =? d)%char && like pat' txt'
          end
  end.

(** [column.ilike(pattern)], compiled for SQLite as
    [lower(column) LIKE lower(pattern)]. *)
Definition ilike (column pattern : string) : bool :=
  like (c_text (lower (list_ascii_of_string pattern)))
       (c_text (lower (list_ascii_of_string column))).

End Sql.

(* ================================================================== *)
(** ** The request handlers (app.py) *)

Inductive http (A : Type) : Type :=
| Ok200 (body : A)
| Http500.
Arguments Ok200 {A} body.
Arguments Http500 {A}.

Record LeadResponse : Type := mkLeadResponse {
  r_id : string;
  r_name : string;
  r_company : string;
  r_industry : string;
  r_size : Z;
  r_source : string;
  r_created_at : string;
  r_quality : string;
  r_summary : string
}.

(** The request body of [POST /api/events] (schemas.py). *)
Record EventData : Type := mkEventData {
  ed_action : string;
  ed_data : Py.json;
  ed_timestamp : option string
}.

Record EventResponse : Type := mkEventResponse {
  er_id : Z;
  er_action : string;
  er_data : Py.json;
  er_timestamp : string
}.

(** [s.replace('Z', '+00:00')]. *)
Fixpoint replace_Z (s : string) : string :=
  match s with
  | EmptyString => EmptyString
  | String c s' =>
      if (c =? "Z")%char then "+00:00" ++ replace_Z s'
      else String c (replace_Z s')
  end.

Module Api.
Import Py.

Section Handlers.

(** [datetime.fromisoformat], [None] when it raises, and
    [datetime.isoformat]. *)
Variable fromisoformat : string -> option datetime.
Variable isoformat : datetime -> string.

(** Validation of the field [data : Optional[Dict[str, Any]]] when an
    [EventResponse] is built: the accepted value, or [None] when pydantic
    rejects it. *)
Variable response_data : json -> option json.

(** The unused rowid SQLite finds when the event table is at its largest
    rowid. *)
Variable pick_rowid : list Z -> Z.

(** [LeadResponse(...)] for one row; [summary: str] rejects [None]. *)
Definition to_response (lead : LeadModel.row) : option LeadResponse :=
  match LeadModel.summary lead with
  | None => None
  | Some summary =>
      Some (mkLeadResponse (str_of_int (LeadModel.id lead))
              (LeadModel.name lead) (LeadModel.company lead)
              (LeadModel.industry lead) (LeadModel.size lead)
              (LeadModel.source lead) (isoformat (LeadModel.created_at lead))
              (LeadModel.quality lead) summary)
  end.

Fixpoint response_leads (rows : list LeadModel.row)
    : option (list LeadResponse) :=
  match rows with
  | [] => Some []
  | lead :: rest =>
      match to_response lead, response_leads rest with
      | Some r, Some rs => Some (r :: rs)
      | _, _ => None
      end
  end.

(** Lines 190-198: the rows [query.all()] returns. A size that is not a
    64-bit integer cannot be bound and the query raises. *)
Definition select_leads (industry : option string) (size : option Z)
    (table : list LeadModel.row) : result (list LeadModel.row) :=
  let query := table in
  let query :=
    match industry with
    | Some i =>
        if truthy (JStr i) then
          filter (fun lead =>
                    Sql.ilike (LeadModel.industry lead) ("%" ++ i ++ "%"))
            query
        else query
    | None => query
    end in
  match size with
  | Some n =>
      if truthy (JInt n) then
        if sqlite_int n then
          Ret (filter (fun lead => LeadModel.size lead >=? n) query)
        else Raise OverflowError
      else Ret query
  | None => Ret query
  end.

(** Lines 201-205 and 209: the payload of the logged event. *)
Definition filter_event_data (industry : option string) (size : option Z)
    : json :=
  let filter_data := [] in
  let filter_data :=
    match industry with
    | Some i =>
        if truthy (JStr i) then filter_data ++ [("industry", JStr i)]
        else filter_data
    | None => filter_data
    end in
  let filter_data :=
    match size with
    | Some n =>
        if truthy (JInt n) then filter_data ++ [("size", JInt n)]
        else filter_data
    | None => filter_data
    end in
  if truthy (JObj filter_data) then JObj filter_data else JNull.

(** [GET /api/leads]. When the query raises nothing is stored. The event
    is committed before the response is built, so it is stored also when
    building the response fails. *)
Definition get_leads (industry : option string) (size : option Z)
    (now : datetime) (db : Db) : Db * http (list LeadResponse) :=
  match select_leads industry size (leads db) with
  | Raise _ => (db, Http500)
  | Ret rows =>
      let (db', _) :=
        add_event pick_rowid db "filter" (filter_event_data industry size)
          now in
      match response_leads rows with
      | Some body => (db', Ok200 body)
      | None => (db', Http500)
      end
  end.

(** Lines 245-251: the timestamp of the event to store. *)
Definition event_timestamp (supplied : option string) (now : datetime)
    : datetime :=
  match supplied with
  | Some ts =>
      if truthy (JStr ts) then
        match fromisoformat (replace_Z ts) with
        | Some t => t
        | None => now
        end
      else now
  | None => now
  end.

(** [POST /api/events]. [db.rollback()] after a commit undoes nothing. *)
Definition post_event (event_data : EventData) (now : datetime) (db : Db)
    : Db * http EventResponse :=
  let timestamp := event_timestamp (ed_timestamp event_data) now in
  let (db', event) :=
    add_event pick_rowid db (ed_action event_data) (ed_data event_data)
      timestamp in
  match response_data (EventModel.data event) with
  | Some d =>
      (db', Ok200 (mkEventResponse (EventModel.id event)
                     (EventModel.action event) d
                     (isoformat (EventModel.timestamp event))))
  | None => (db', Http500)
  end.

End Handlers.
End Api.

(* ================================================================== *)
(** ** The reports (analytics.py) *)

Module Analytics.
Import Py.

(** *** SQL aggregation *)

(** One more row of key [key] in a [GROUP BY key] with [COUNT]. *)
Fixpoint count_row (key : string) (groups : list (string * Z))
    : list (string * Z) :=
  match groups with
  | [] => [(key, 1)]
  | (k, n) :: rest =>
      if (k =? key)%string then (k, n + 1) :: rest
      else (k, n) :: count_row key rest
  end.

(** The groups of [GROUP BY key] with their [COUNT], in order of first
    appearance. *)
Definition group_count (keys : list string) : list (string * Z) :=
  fold_left (fun groups key => count_row key groups) keys [].

(** SQL fixes no order for the rows of a query beyond its [ORDER BY]:
    [rows] is a result of a grouped query when it holds the groups in some
    order. *)
Definition query_result (groups rows : list (string * Z)) : Prop :=
  Permutation groups rows.

Definition count_ge (a b : string * Z) : Prop := snd a >= snd b.

(** Lines 53-56: [GROUP BY action ORDER BY COUNT(id) DESC]. *)
Definition action_counts (events : list EventModel.row)
    (rows : list (string * Z)) : Prop :=
  query_result (group_count (map EventModel.action events)) rows
  /\ StronglySorted count_ge rows.

(** The same as a test on a candidate result. *)
Fixpoint count_desc_sorted (rows : list (string * Z)) : bool :=
  match rows with
  | [] => true
  | a :: rest =>
      forallb (fun b => snd a >=? snd b) rest && count_desc_sorted rest
  end.

(** The rows as SQLite returns them. [GROUP BY action] yields its groups
    in ascending order of the key (bytewise, the BINARY collation), and the
    sorter of [ORDER BY] is a merge sort that keeps rows with equal keys
    in the order they came. *)
Fixpoint insert_by_name (row : string * Z) (rows : list (string * Z))
    : list (string * Z) :=
  match rows with
  | [] => [row]
  | r :: rest =>
      if String.ltb (fst r) (fst row) then r :: insert_by_name row rest
      else row :: rows
  end.

Definition by_name (rows : list (string * Z)) : list (string * Z) :=
  fold_right insert_by_name [] rows.

Fixpoint insert_by_count (row : string * Z) (rows : list (string * Z))
    : list (string * Z) :=
  match rows with
  | [] => [row]
  | r :: rest =>
      if snd r >? snd row then r :: insert_by_count row rest
      else row :: rows
  end.

Definition by_count_desc (rows : list (string * Z)) : list (string * Z) :=
  fold_right insert_by_count [] rows.

Definition action_frequency (events : list EventModel.row)
    : list (string * Z) :=
  by_count_desc (by_name (group_count (map EventModel.action events))).

(** Lines 134-137: [GROUP BY quality], no [ORDER BY]. *)
Definition quality_counts (leads : list LeadModel.row)
    (rows : list (string * Z)) : Prop :=
  query_result (group_count (map LeadModel.quality leads)) rows.

(** *** Filter usage patterns, lines 63-82 *)

(** [d[key] = d.get(key, 0) + 1]; a dict keeps its keys in insertion
    order. *)
Fixpoint dict_incr_at (key : json) (d : list (json * Z)) : list (json * Z) :=
  match d with
  | [] => [(key, 1)]
  | (k, n) :: rest =>
      if key_eqb k key then (k, n + 1) :: rest
      else (k, n) :: dict_incr_at key rest
  end.

Definition dict_incr (key : json) (d : list (json * Z))
    : result (list (json * Z)) :=
  if hashable key then Ret (dict_incr_at key d) else Raise TypeError.

(** The body of the loop of lines 68-74 for one event. *)
Definition filter_step (event : EventModel.row)
    (acc : list (json * Z) * list json)
    : result (list (json * Z) * list json) :=
  let (industry_filters, size_filters) := acc in
  let data := EventModel.data event in
  if truthy data then
    has_industry <- contains "industry" data ;;
    industry_filters' <-
      (if has_industry : bool then
         industry <- subscript data "industry" ;;
         dict_incr industry industry_filters
       else Ret industry_filters) ;;
    has_size <- contains "size" data ;;
    size_filters' <-
      (if has_size : bool then
         size <- subscript data "size" ;;
         Ret (size_filters ++ [size])
       else Ret size_filters) ;;
    Ret (industry_filters', size_filters')
  else Ret acc.

Fixpoint filter_loop (filter_events : list EventModel.row)
    (acc : list (json * Z) * list json)
    : result (list (json * Z) * list json) :=
  match filter_events with
  | [] => Ret acc
  | event :: rest =>
      acc' <- filter_step event acc ;;
      filter_loop rest acc'
  end.

(** [sorted(items, key=lambda x: x[1], reverse=True)]: stable. *)
Fixpoint insert_desc (x : json * Z) (l : list (json * Z)) : list (json * Z) :=
  match l with
  | [] => [x]
  | y :: l' => if snd y >? snd x then y :: insert_desc x l' else x :: l
  end.

Definition sorted_desc (items : list (json * Z)) : list (json * Z) :=
  fold_right insert_desc [] items.

Record FilterUsage : Type := mkFilterUsage {
  most_filtered : list (json * Z);
  avg_size_filter : option Q       (* the mean, before [:.0f] *)
}.

Definition is_filter (event : EventModel.row) : bool :=
  (EventModel.action event =? "filter")%string.

Definition filter_usage (events : list EventModel.row) : result FilterUsage :=
  let filter_events := filter is_filter events in
  acc <- filter_loop filter_events ([], []) ;;
  let (industry_filters, size_filters) := acc in
  let report := sorted_desc industry_filters in
  match size_filters with
  | [] => Ret (mkFilterUsage report None)
  | _ :: _ =>
      total <- sum size_filters ;;
      avg_size_filter <-
        true_div total (Z.of_nat (List.length size_filters)) ;;
      Ret (mkFilterUsage report (Some avg_size_filter))
  end.

(** *** The fallback loop of [get_industry_filter_usage], lines 287-308 *)

Section TopIndustries.

(** [json.loads], [None] when it raises. *)
Variable json_loads : string -> option json.

Definition possible_keys : list string :=
  ["industry"; "selectedIndustry"; "filter_industry"; "industryFilter"].

(** Lines 299-305: the value under the first key that [data] has, when
    [data] is a dict. *)
Fixpoint first_key (data : json) (keys : list string) : option json :=
  match keys with
  | [] => None
  | key :: rest =>
      match data with
      | JObj fields =>
          match dict_get key fields with
          | Some industry => Some industry
          | None => first_key data rest
          end
      | _ => first_key data rest
      end
  end.

(** The body of the loop for one row of the text query, whose [data]
    column is SQL NULL or the stored JSON text. *)
Definition usage_step (data : option string)
    (industry_counts : list (json * Z)) : result (list (json * Z)) :=
  match data with
  | Some text =>
      if truthy (JStr text) then
        match json_loads text with
        | None => Ret industry_counts
        | Some data =>
            match first_key data possible_keys with
            | Some industry =>
                if truthy industry then dict_incr industry industry_counts
                else Ret industry_counts
            | None => Ret industry_counts
            end
        end
      else Ret industry_counts
  | None => Ret industry_counts
  end.

End TopIndustries.

(** *** Lead quality distribution, lines 139-142 *)

(** [(count / total_leads) * 100] in exact arithmetic. *)
Definition percentage (count total_leads : Z) : result Q :=
  if total_leads =? 0 then Raise ZeroDivisionError
  else Ret ((inject_Z count / inject_Z total_leads) * 100)%Q.

Definition total_count (rows : list (string * Z)) : Z :=
  fold_right (fun row acc => snd row + acc) 0 rows.

Fixpoint quality_lines (total_leads : Z) (rows : list (string * Z))
    : result (list (string * Z * Q)) :=
  match rows with
  | [] => Ret []
  | (quality, count) :: rest =>
      pct <- percentage count total_leads ;;
      lines <- quality_lines total_leads rest ;;
      Ret ((quality, count, pct) :: lines)
  end.

Definition lead_quality_distribution (quality_counts : list (string * Z))
    : result (list (string * Z * Q)) :=
  let total_leads := total_count quality_counts in
  quality_lines total_leads quality_counts.

Definition sum_percentages (lines : list (string * Z * Q)) : Q :=
  fold_right (fun line acc => (snd line + acc)%Q) 0%Q lines.

(** The sum of the percentages as printed, [shown] standing for the
    rounding of [{percentage:.1f}]. *)
Definition shown_sum (shown : Q -> Q) (lines : list (string * Z * Q)) : Q :=
  fold_right (fun line acc => (shown (snd line) + acc)%Q) 0%Q lines.

(** The count printed for [quality], 0 when the report has no such line. *)
Fixpoint count_of (quality : string) (lines : list (string * Z * Q)) : Z :=
  match lines with
  | [] => 0
  | (q, n, _) :: rest =>
      if (q =? quality)%string then n else count_of quality rest
  end.

End Analytics.

(* ================================================================== *)
(** ** Vocabulary of the properties *)

Module Spec.
Import Py.









Definition size_kept (size : option Z) (lead : LeadModel.row) : bool :=
  match size with
  | Some n => n <=? LeadModel.size lead
  | None => true
  end.

(** A size filter that SQLite accepts as a parameter. *)
Definition size_ok (size : option Z) : bool :=
  match size with
  | Some n => sqlite_int n
  | None => true
  end.

(** A filter field that is empty or zero counts as not supplied. *)
Definition nonblank (industry : option string) : option string :=
  match industry with
  | Some "" => None
  | other => other
  end.

Definition nonzero (size : option Z) : option Z :=
  match size with
  | Some 0 => None
  | other => other
  end.

(** The payload made of the filter fields that are not null. *)
Definition supplied_fields (industry : option string) (size : option Z)
    : list (string * json) :=
  match industry with Some i => [("industry", JStr i)] | None => [] end
  ++ match size with Some n => [("size", JInt n)] | None => [] end.

Definition supplied_data (industry : option string) (size : option Z)
    : json :=
  match supplied_fields industry size with
  | [] => JNull
  | fields => JObj fields
  end.

(** The order of the report: [a] is listed before [b] when it has the
    larger count, or the same count and the smaller name. *)
Definition name_lt (a b : string * Z) : Prop :=
  String.ltb (fst a) (fst b) = true.

Definition listed_before (a b : string * Z) : Prop :=
  snd b < snd a \/ (snd b = snd a /\ name_lt a b).

(** Rows with equal counts are in ascending order of name. *)
Fixpoint ties_ascending (rows : list (string * Z)) : bool :=
  match rows with
  | [] => true
  | a :: rest =>
      forallb (fun b => negb (snd a =? snd b) || String.ltb (fst a) (fst b))
        rest
      && ties_ascending rest
  end.

(** Number of elements of [keys] equal to [key]. *)
Definition occurrences (key : string) (keys : list string) : Z :=
  Z.of_nat (List.length (filter (String.eqb key) keys)).

(** The count listed for [key], 0 when no row has this key. *)
Fixpoint count_in (key : string) (rows : list (string * Z)) : Z :=
  match rows with
  | [] => 0
  | (k, n) :: rest => if (k =? key)%string then n else count_in key rest
  end.

End Spec.

(* ================================================================== *)
(** ** [get_lead_by_id] (analytics.py) *)

Module Lookup.
Import Py.

Section Lookup.

Variable isoformat : datetime -> string.

(** [db.query(LeadModel).filter(LeadModel.id == lead_id).first()]. *)
Definition first_by_id (lead_id : Z) (table : list LeadModel.row)
    : option LeadModel.row :=
  find (fun lead => LeadModel.id lead =? lead_id) table.

(** The dict returned for a row. The model has no [email], [phone] or
    [updated_at] attribute, so [getattr] and the [hasattr] test give
    [None]. *)
Definition lead_payload (lead : LeadModel.row) : json :=
  JObj [("id", JInt (LeadModel.id lead));
        ("name", JStr (LeadModel.name lead));
        ("company", JStr (LeadModel.company lead));
        ("quality", JStr (LeadModel.quality lead));
        ("summary",
         match LeadModel.summary lead with Some s => JStr s | None => JNull end);
        ("industry", JStr (LeadModel.industry lead));
        ("size", JInt (LeadModel.size lead));
        ("source", JStr (LeadModel.source lead));
        ("email", JNull);
        ("phone", JNull);
        ("created_at", JStr (isoformat (LeadModel.created_at lead)));
        ("updated_at", JNull)].

(** An id that is not a 64-bit integer cannot be bound: the query raises,
    and nothing in the function catches it. *)
Definition get_lead_by_id (lead_id : Z) (table : list LeadModel.row)
    : result json :=
  if sqlite_int lead_id then
    match first_by_id lead_id table with
    | None =>
        Ret (JObj [("error",
                    JStr ("Lead with ID " ++ str_of_int lead_id
                          ++ " not found"))])
    | Some lead => Ret (lead_payload lead)
    end
  else Raise OverflowError.

End Lookup.
End Lookup.

(* ================================================================== *)
(** ** Sequences of requests *)

Module Session.

Inductive request : Type :=
| GetLeads (industry : option string) (size : option Z)
| PostEvent (event_data : EventData).

Section Session.

Variable fromisoformat : string -> option datetime.
Variable isoformat : datetime -> string.
Variable response_data : Py.json -> option Py.json.
Variable pick_rowid : list Z -> Z.

(** The database after one request served at time [now]. *)
Definition handle (req : request) (now : datetime) (db : Db) : Db :=
  match req with
  | GetLeads industry size =>
      fst (Api.get_leads isoformat pick_rowid industry size now db)
  | PostEvent event_data =>
      fst (Api.post_event fromisoformat isoformat response_data pick_rowid
             event_data now db)
  end.

(** Requests served one after the other, each with its clock reading. *)
Fixpoint serve (calls : list (request * datetime)) (db : Db) : Db :=
  match calls with
  | [] => db
  | (req, now) :: rest => serve rest (handle req now db)
  end.

End Session.

(** The request stores an event: a post-event request does, a leads-list
    request does when its query is accepted. *)
Definition stores_event (table : list LeadModel.row) (req : request) : bool :=
  match req with
  | GetLeads industry size =>
      match Api.select_leads industry size table with
      | Py.Ret _ => true
      | Py.Raise _ => false
      end
  | PostEvent _ => true
  end.

End Session.

(* ================================================================== *)
(** ** More reports of analytics.py *)

Module Reports.
Import Py.

(** *** Overall statistics, lines 112-118 *)

Fixpoint somes {A : Type} (l : list (option A)) : list A :=
  match l with
  | [] => []
  | Some a :: rest => a :: somes rest
  | None :: rest => somes rest
  end.

Section Overall.

(** SQL [date(timestamp)], [None] for NULL; [COUNT(DISTINCT ...)] does not
    count NULL. *)
Variable date_of : datetime -> option string.

Definition unique_days (events : list EventModel.row) : Z :=
  Z.of_nat
    (List.length
       (nodup string_dec
          (somes (map (fun e => date_of (EventModel.timestamp e)) events)))).

(** Total events, days with activity, and the average printed under
    [if unique_days > 0], before [:.1f]. *)
Definition overall_statistics (events : list EventModel.row)
    : Z * Z * option Q :=
  let total_events := Z.of_nat (List.length events) in
  let unique_days := unique_days events in
  (total_events, unique_days,
   if unique_days >? 0
   then Some (inject_Z total_events / inject_Z unique_days)%Q
   else None).

End Overall.

(** *** Company size analysis, lines 167-179 *)

(** The [case] expression of the query. *)
Definition size_range (size : Z) : string :=
  if size <? 50 then "Small (1-49)"
  else if size <? 200 then "Medium (50-199)"
  else if size <? 500 then "Large (200-499)"
  else "Enterprise (500+)".

(** The sizes of the leads of one group. *)
Definition band_sizes (band : string) (leads : list LeadModel.row) : list Z :=
  filter (fun size => (size_range size =? band)%string)
    (map LeadModel.size leads).

Definition sum_sizes (sizes : list Z) : Z := fold_right Z.add 0 sizes.

(** The groups of [GROUP BY size_range] with [COUNT(id)] and [AVG(size)],
    the average in exact arithmetic. *)
Definition size_groups (leads : list LeadModel.row) : list (string * Z * Q) :=
  map (fun group : string * Z =>
         (fst group, snd group,
          (inject_Z (sum_sizes (band_sizes (fst group) leads))
           / inject_Z (snd group))%Q))
    (Analytics.group_count
       (map (fun lead => size_range (LeadModel.size lead)) leads)).

(** The query has no [ORDER BY]. *)
Definition size_ranges (leads : list LeadModel.row)
    (rows : list (string * Z * Q)) : Prop :=
  Permutation (size_groups leads) rows.

End Reports.

(* ================================================================== *)
(** ** More vocabulary *)

Module Order.

(** The rank of a quality tier, Low < Medium < High. *)
Definition tier_rank (quality : Py.json) : Z :=
  match quality with
  | Py.JStr "High" => 2
  | Py.JStr "Medium" => 1
  | _ => 0
  end.

(** Strictly increasing ids. *)
Definition increasing (ids : list Z) : Prop := StronglySorted Z.lt ids.

End Order.

(* ================================================================== *)
(** ** The top industries of [get_industry_filter_usage] (analytics.py) *)

Module Usage.
Import Py.

Section Usage.

Variable json_loads : string -> option json.

(** The loop of lines 289-308 over the [data] column of the rows of the
    text query. *)
Fixpoint usage_loop (rows : list (option string))
    (industry_counts : list (json * Z)) : result (list (json * Z)) :=
  match rows with
  | [] => Ret industry_counts
  | data :: rest =>
      industry_counts' <-
        Analytics.usage_step json_loads data industry_counts ;;
      usage_loop rest industry_counts'
  end.

(** Lines 310-319: the rows of the table printed, none standing for the
    line "No data". *)
Definition top_industries (rows : list (option string))
    : result (list (json * Z)) :=
  industry_counts <- usage_loop rows [] ;;
  Ret (firstn 3 (Analytics.sorted_desc industry_counts)).

(** The rows the loop reads: a non-empty text that decodes to a dict. *)
Definition read_row (data : option string) : bool :=
  match data with
  | Some text =>
      truthy (JStr text)
      && match json_loads text with
         | Some (JObj _) => true
         | _ => false
         end
  | None => false
  end.

End Usage.
End Usage.

(* ================================================================== *)
(** ** Vocabulary for the counting reports *)

Module Counting.
Import Py.

(** The value a dict key is compared by: [True] and [False] are the keys
    1 and 0. *)
Definition key_of (key : json) : json :=
  match key with
  | JBool true => JInt 1
  | JBool false => JInt 0
  | other => other
  end.

Definition count_total (items : list (json * Z)) : Z :=
  fold_right (fun item acc => snd item + acc) 0 items.

Definition item_ge (a b : json * Z) : Prop := snd a >= snd b.

(** The loop of the filter-usage report counts this event under its
    industry. *)
Definition carries (key : string) (event : EventModel.row) : bool :=
  truthy (EventModel.data event)
  && match contains key (EventModel.data event) with
     | Ret true => true
     | _ => false
     end.


(** What the dict of the counting loops satisfies: hashable keys,
    counts of at least 1, no key twice. *)
Definition counts_ok (d : list (json * Z)) : Prop :=
  Forall (fun item => hashable (fst item) = true /\ 1 <= snd item) d
  /\ NoDup (map key_of (map fst d)).

End Counting.

(* ================================================================== *)
(** ** [load_sample_data] (app.py) *)

Module Ingest.
Import Py.

(** A row of [csv.DictReader]: a field is [None] when the file or the row
    has no such column. *)
Record CsvRow : Type := mkCsvRow {
  c_id : option string;
  c_name : option string;
  c_company : option string;
  c_industry : option string;
  c_size : option string;
  c_source : option string;
  c_created_at : option string
}.

(** No id twice: the primary key constraint at commit. *)
Fixpoint distinct (ids : list Z) : bool :=
  match ids with
  | [] => true
  | id :: rest => negb (existsb (Z.eqb id) rest) && distinct rest
  end.

(** The table keeps its rows by rowid, which for leads is the id. *)
Fixpoint insert_row (lead : LeadModel.row) (table : list LeadModel.row)
    : list LeadModel.row :=
  match table with
  | [] => [lead]
  | row :: rest =>
      if LeadModel.id lead <=? LeadModel.id row then lead :: table
      else row :: insert_row lead rest
  end.

Definition by_rowid (rows : list LeadModel.row) : list LeadModel.row :=
  fold_right insert_row [] rows.

Section Ingest.

(** [int(s)], [None] when it raises. *)
Variable int_of_str : string -> option Z.
Variable fromisoformat : string -> option datetime.

(** What a String or Text column stores for a Python value: [None] when
    the value cannot be bound, [Some None] for NULL. *)
Variable bind_text : json -> option (option string).

Variable LLM_AVAILABLE : bool.

(** The outcome of the LLM call and the clock reading for the row of each
    index. *)
Variable llm : nat -> Classifier.llm_outcome.
Variable clock : nat -> datetime.

(** Lines 133-160 for the row of index [k]: the lead added to the session,
    or [None] when the body raises or the row cannot be committed. The
    columns taken from the file are NOT NULL and have no default; a
    [quality] of [None] is left out of the INSERT and the column default
    "Medium" is stored. *)
Definition row_lead (k : nat) (row : CsvRow) : option LeadModel.row :=
  match c_created_at row, c_name row, c_company row, c_industry row,
        c_size row, c_source row, c_id row with
  | Some created_at_str, Some name, Some company, Some industry,
    Some size_str, Some source, Some id_str =>
      let created_at :=
        match fromisoformat (replace_Z created_at_str) with
        | Some t => t
        | None => clock k
        end in
      match int_of_str size_str, int_of_str id_str with
      | Some size, Some id =>
          let enhancement :=
            Classifier.enhance_lead_with_llm LLM_AVAILABLE (llm k) name
              company industry size source in
          match subscript enhancement "quality",
                subscript enhancement "summary" with
          | Ret quality, Ret summary =>
              match bind_text quality, bind_text summary with
              | Some quality, Some summary =>
                  let quality :=
                    match quality with
                    | Some q => q
                    | None => "Medium"
                    end in
                  if sqlite_int id && sqlite_int size then
                    Some (LeadModel.mk id name company industry size source
                            created_at quality summary)
                  else None
              | _, _ => None
              end
          | _, _ => None
          end
      | _, _ => None
      end
  | _, _, _, _, _, _, _ => None
  end.

Fixpoint rows_leads (k : nat) (rows : list CsvRow)
    : option (list LeadModel.row) :=
  match rows with
  | [] => Some []
  | row :: rest =>
      match row_lead k row, rows_leads (S k) rest with
      | Some lead, Some leads => Some (lead :: leads)
      | _, _ => None
      end
  end.

(** The database after startup; [csv] is [None] when the file does not
    exist. Any exception rolls the session back. *)
Definition load_sample_data (csv : option (list CsvRow)) (db : Db) : Db :=
  match leads db with
  | _ :: _ => db
  | [] =>
      match csv with
      | None => db
      | Some rows =>
          match rows_leads 0 rows with
          | Some added =>
              if distinct (map LeadModel.id added)
              then mkDb (by_rowid added) (events db)
              else db
          | None => db
          end
      end
  end.

End Ingest.
End Ingest.

(* ================================================================== *)
(** ** The two-column breakdowns of [get_lead_analytics] (analytics.py) *)

Module Breakdown.
Import Py.

(** *** [GROUP BY] over two columns *)

Definition pair_eqb (a b : string * string) : bool :=
  (fst a =? fst b)%string && (snd a =? snd b)%string.

Fixpoint count_pair (key : string * string)
    (groups : list (string * string * Z)) : list (string * string * Z) :=
  match groups with
  | [] => [(key, 1)]
  | (k, n) :: rest =>
      if pair_eqb k key then (k, n + 1) :: rest
      else (k, n) :: count_pair key rest
  end.

Definition group_count2 (keys : list (string * string))
    : list (string * string * Z) :=
  fold_left (fun groups key => count_pair key groups) keys [].

(** Lines 146-150: [GROUP BY industry, quality], and lines 183-187:
    [GROUP BY source, quality]; no [ORDER BY]. *)
Definition industry_quality (leads : list LeadModel.row)
    (rows : list (string * string * Z)) : Prop :=
  Permutation
    (group_count2
       (map (fun lead => (LeadModel.industry lead, LeadModel.quality lead))
          leads))
    rows.

Definition source_quality (leads : list LeadModel.row)
    (rows : list (string * string * Z)) : Prop :=
  Permutation
    (group_count2
       (map (fun lead => (LeadModel.source lead, LeadModel.quality lead))
          leads))
    rows.

(** *** Dicts with [str] keys, in insertion order *)

Fixpoint dict_find {V : Type} (key : string) (d : list (string * V))
    : option V :=
  match d with
  | [] => None
  | (k, v) :: rest => if (k =? key)%string then Some v else dict_find key rest
  end.

(** [d[key] = v]. *)
Fixpoint dict_set {V : Type} (key : string) (v : V) (d : list (string * V))
    : list (string * V) :=
  match d with
  | [] => [(key, v)]
  | (k, x) :: rest =>
      if (k =? key)%string then (k, v) :: rest
      else (k, x) :: dict_set key v rest
  end.

(** [d[key]] for a dict of ints. *)
Definition dict_int (key : string) (d : list (string * Z)) : result Z :=
  match dict_find key d with
  | Some n => Ret n
  | None => Raise KeyError
  end.

(** *** Industry breakdown with quality, lines 152-163 *)

(** The body of the loop of lines 153-156. *)
Definition add_quality (row : string * string * Z)
    (industry_data : list (string * list (string * Z)))
    : list (string * list (string * Z)) :=
  let '(industry, quality, count) := row in
  let qualities :=
    match dict_find industry industry_data with
    | Some qualities => qualities
    | None => []
    end in
  dict_set industry (dict_set quality count qualities) industry_data.

Definition build_industry_data (rows : list (string * string * Z))
    : list (string * list (string * Z)) :=
  fold_left (fun data row => add_quality row data) rows [].

(** Lines 158-163: per industry its total and, per quality, the count and
    the percentage of the total. *)
Fixpoint breakdown_lines (industry_data : list (string * list (string * Z)))
    : result (list (string * Z * list (string * Z * Q))) :=
  match industry_data with
  | [] => Ret []
  | (industry, qualities) :: rest =>
      let total := Analytics.total_count qualities in
      lines <- Analytics.quality_lines total qualities ;;
      more <- breakdown_lines rest ;;
      Ret ((industry, total, lines) :: more)
  end.

Definition industry_breakdown (rows : list (string * string * Z))
    : result (list (string * Z * list (string * Z * Q))) :=
  breakdown_lines (build_industry_data rows).

(** *** Source effectiveness, lines 189-198 *)

Definition new_source : list (string * Z) :=
  [("High", 0); ("Medium", 0); ("Low", 0); ("total", 0)].

(** The body of the loop of lines 190-194. *)
Definition add_source (row : string * string * Z)
    (source_data : list (string * list (string * Z)))
    : result (list (string * list (string * Z))) :=
  let '(source, quality, count) := row in
  let data :=
    match dict_find source source_data with
    | Some data => data
    | None => new_source
    end in
  let data := dict_set quality count data in
  total <- dict_int "total" data ;;
  Ret (dict_set source (dict_set "total" (total + count) data) source_data).

Fixpoint build_source_data (rows : list (string * string * Z))
    (source_data : list (string * list (string * Z)))
    : result (list (string * list (string * Z))) :=
  match rows with
  | [] => Ret source_data
  | row :: rest =>
      source_data' <- add_source row source_data ;;
      build_source_data rest source_data'
  end.

(** Line 197: the share of High leads, 0 when the total is not positive. *)
Definition high_rate (data : list (string * Z)) : result Q :=
  total <- dict_int "total" data ;;
  if total >? 0 then
    high <- dict_int "High" data ;;
    total <- dict_int "total" data ;;
    Ret (inject_Z high / inject_Z total * 100)%Q
  else Ret 0%Q.

Fixpoint source_lines (source_data : list (string * list (string * Z)))
    : result (list (string * Z * Q)) :=
  match source_data with
  | [] => Ret []
  | (source, data) :: rest =>
      rate <- high_rate data ;;
      total <- dict_int "total" data ;;
      more <- source_lines rest ;;
      Ret ((source, total, rate) :: more)
  end.

Definition source_effectiveness (rows : list (string * string * Z))
    : result (list (string * Z * Q)) :=
  source_data <- build_source_data rows [] ;;
  source_lines source_data.

(** *** Vocabulary *)

(** The sum of the counts of the rows whose key passes [p]. *)
Definition sum_where (p : string * string -> bool)
    (rows : list (string * string * Z)) : Z :=
  fold_right (fun row acc => (if p (fst row) then snd row else 0) + acc) 0
    rows.

(** The number of leads whose [field] is [value]. *)
Definition leads_with (field : LeadModel.row -> string) (value : string)
    (leads : list LeadModel.row) : Z :=
  Z.of_nat
    (List.length (filter (fun lead => (field lead =? value)%string) leads)).

(** The number of High leads of a source. *)
Definition high_leads (source : string) (leads : list LeadModel.row) : Z :=
  Z.of_nat
    (List.length
       (filter (fun lead =>
                  pair_eqb (LeadModel.source lead, LeadModel.quality lead)
                    (source, "High"))
          leads)).

End Breakdown.

(* ================================================================== *)
(** * Properties *)

Import Py.

(** ** The quality classifier *)

Section ClassifierFacts.

Variables (name company industry : string) (size : Z) (source : string).

Lemma rule_quality_high :
  500 <= size -> source = "Referral" \/ source = "Trade Show" ->
  Classifier.rule_quality size source = "High".
Proof.
  intros Hsize Hsrc. unfold Classifier.rule_quality.
  replace (size >=? 500) with true by (symmetry; apply Z.geb_le; lia).
  destruct Hsrc as [-> | ->]; reflexivity.
Qed.

Lemma in_list_spec s l : Classifier.in_list s l = true <-> In s l.
Proof.
  unfold Classifier.in_list. rewrite existsb_exists. split.
  - intros [x [Hin Heq]]. apply String.eqb_eq in Heq. now subst.
  - intros Hin. exists s. split; [assumption | apply String.eqb_refl].
Qed.

Lemma not_in_list s l : ~ In s l -> Classifier.in_list s l = false.
Proof.
  intros Hn. destruct (Classifier.in_list s l) eqn:E; [ | reflexivity].
  apply in_list_spec in E. contradiction.
Qed.

Lemma rule_quality_not_high :
  ~ (500 <= size /\ (source = "Referral" \/ source = "Trade Show")) ->
  Classifier.rule_quality size source
  = if (size >=? 100) && negb (Classifier.in_list source ["Organic"])
    then "Medium" else "Low".
Proof.
  intros Hn. unfold Classifier.rule_quality.
  destruct (size >=? 500) eqn:Hs; [ | reflexivity].
  apply Z.geb_le in Hs.
  rewrite not_in_list; [reflexivity | ].
  simpl. intros [H | [H | []]]; apply Hn; auto.
Qed.

End ClassifierFacts.

(** C1: with no LLM available, a lead of positive size gets quality High
    when size >= 500 and the source is Referral or Trade Show; otherwise
    Medium when size >= 100 and the source is not Organic; otherwise Low.
    The summary returned with it is the templated sentence. *)
Theorem default_classifier_rule :
  forall (llm : Classifier.llm_outcome) (name company industry : string)
         (size : Z) (source : string),
    0 < size ->
    let high := 500 <= size /\ (source = "Referral" \/ source = "Trade Show") in
    let medium := 100 <= size /\ source <> "Organic" in
    let answer :=
      Classifier.enhance_lead_with_llm false llm name company industry size
        source in
    (high -> Classifier.quality_of answer = Ret (JStr "High"))
    /\ (~ high -> medium -> Classifier.quality_of answer = Ret (JStr "Medium"))
    /\ (~ high -> ~ medium -> Classifier.quality_of answer = Ret (JStr "Low"))
    /\ subscript answer "summary"
       = Ret (JStr (Classifier.rule_summary company industry size source)).
Proof.
  intros llm name company industry size source _ high medium answer.
  assert (Hq : Classifier.quality_of answer
               = Ret (JStr (Classifier.rule_quality size source)))
    by reflexivity.
  rewrite Hq. repeat split.
  - intros [Hsize Hsrc]. now rewrite rule_quality_high.
  - intros Hn [Hsize Hsrc]. rewrite rule_quality_not_high by exact Hn.
    replace (size >=? 100) with true by (symmetry; apply Z.geb_le; lia).
    rewrite not_in_list; [reflexivity | ].
    simpl. intros [H | []]. now apply Hsrc.
  - intros Hn Hm. rewrite rule_quality_not_high by exact Hn.
    destruct (size >=? 100) eqn:Hs; [ | reflexivity].
    apply Z.geb_le in Hs.
    destruct (Classifier.in_list source ["Organic"]) eqn:Ho; [reflexivity | ].
    exfalso. apply Hm. split; [lia | ].
    intros ->. discriminate Ho.
Qed.

Lemma default_classifier_rule_witness :
  0 < 600
  /\ Classifier.quality_of
       (Classifier.enhance_lead_with_llm false Classifier.LlmRaises
          "Ada" "Acme" "Finance" 600 "Referral")
     = Ret (JStr "High").
Proof.
  split; [lia | ].
  apply (default_classifier_rule Classifier.LlmRaises "Ada" "Acme" "Finance"
           600 "Referral"); [lia | ].
  split; [lia | left; reflexivity].
Defined.

(** C2 as stated fails: an LLM answer whose quality is not one of the three
    tiers is returned as it is, not replaced by the rule-based answer. *)
Lemma llm_answer_not_validated :
  let answer := JObj [("quality", JStr "Excellent"); ("summary", JStr "ok")] in
  Classifier.quality_in_tiers answer = false
  /\ Classifier.enhance_lead_with_llm true (Classifier.LlmResult answer)
       "Ada" "Acme" "Finance" 600 "Referral"
     = answer
  /\ Classifier.enhance_lead_with_llm true (Classifier.LlmResult answer)
       "Ada" "Acme" "Finance" 600 "Referral"
     <> Classifier.rule_based "Acme" "Finance" 600 "Referral".
Proof.
  cbv zeta. repeat split. discriminate.
Qed.

(** C2, amended: with the LLM available, a decoded answer is returned
    unchanged whatever its quality, and the rule-based quality and templated
    summary are returned exactly when the call or the decoding raises. *)
Theorem llm_answer_returned_unchanged :
  forall (name company industry : string) (size : Z) (source : string),
    (forall result,
        Classifier.enhance_lead_with_llm true (Classifier.LlmResult result)
          name company industry size source
        = result)
    /\ Classifier.enhance_lead_with_llm true Classifier.LlmRaises
         name company industry size source
       = JObj [("quality", JStr (Classifier.rule_quality size source));
               ("summary",
                JStr (Classifier.rule_summary company industry size source))].
Proof.
  intros. split; [intros result | ]; reflexivity.
Qed.

Lemma rule_quality_in_tiers (size : Z) (source : string) :
  In (Classifier.rule_quality size source) Classifier.tiers.
Proof.
  unfold Classifier.rule_quality, Classifier.tiers.
  destruct ((size >=? 500)
            && Classifier.in_list source ["Referral"; "Trade Show"]);
    [now left | ].
  destruct ((size >=? 100) && negb (Classifier.in_list source ["Organic"]));
    [right; now left | right; right; now left].
Qed.

(** C10: with no LLM available, two leads with the same size and the same
    source get the same quality, one of the three tiers, whatever their
    name, company and industry (and whatever the LLM would have
    answered). *)
Theorem default_quality_depends_on_size_and_source :
  forall (llm1 llm2 : Classifier.llm_outcome)
         (name1 company1 industry1 name2 company2 industry2 : string)
         (size : Z) (source : string),
    exists quality : string,
      In quality Classifier.tiers
      /\ Classifier.quality_of
           (Classifier.enhance_lead_with_llm false llm1 name1 company1
              industry1 size source)
         = Ret (JStr quality)
      /\ Classifier.quality_of
           (Classifier.enhance_lead_with_llm false llm2 name2 company2
              industry2 size source)
         = Ret (JStr quality).
Proof.
  intros. exists (Classifier.rule_quality size source).
  split; [apply rule_quality_in_tiers | split; reflexivity].
Qed.

(** ** [LIKE] patterns and substrings *)

Section LikeFacts.

Local Open Scope char_scope.














Lemma list_ascii_of_append (s t : string) :
  list_ascii_of_string (s ++ t)
  = (list_ascii_of_string s ++ list_ascii_of_string t)%list.
Proof.
  induction s as [ | c s IH]; simpl; [reflexivity | now rewrite IH].
Qed.

(** The pattern the handler builds, once lowered. *)
Lemma lower_pattern (i : string) :
  Sql.lower (list_ascii_of_string ("%" ++ i ++ "%")%string)
  = "%" :: Sql.lower (list_ascii_of_string i) ++ ["%"].
Proof.
  simpl. rewrite list_ascii_of_append. unfold Sql.lower.
  rewrite map_app. reflexivity.
Qed.



End LikeFacts.

(** ** Substring tests *)






(** ** [GET /api/leads] *)

Lemma filter_filter {A : Type} (f g : A -> bool) (l : list A) :
  filter f (filter g l) = filter (fun x => g x && f x) l.
Proof.
  induction l as [ | x l IH]; simpl; [reflexivity | ].
  destruct (g x); simpl; [destruct (f x) | ]; now rewrite IH.
Qed.

Lemma filter_true {A : Type} (l : list A) : filter (fun _ => true) l = l.
Proof. induction l as [ | x l IH]; simpl; congruence. Qed.


(** The industry step of [select_leads] is a filter of the table. *)
Lemma select_industry_only (industry : option string) :
  exists keep : LeadModel.row -> bool,
    forall t, Api.select_leads industry None t = Ret (filter keep t).
Proof.
  unfold Api.select_leads. destruct industry as [i | ].
  - destruct (truthy (JStr i)).
    + eexists. intros t. reflexivity.
    + exists (fun _ => true). intros t. now rewrite filter_true.
  - exists (fun _ => true). intros t. now rewrite filter_true.
Qed.


(** The size step alone: the query raises when the size cannot be bound. *)
Lemma select_size_only (size : option Z) (table : list LeadModel.row) :
  Api.select_leads None size table
  = if Spec.size_ok size
    then Ret (filter (Spec.size_kept (Spec.nonzero size)) table)
    else Raise OverflowError.
Proof.
  unfold Api.select_leads, Spec.size_ok.
  destruct size as [n | ]; [ | now rewrite filter_true].
  destruct (Z.eqb_spec n 0) as [-> | Hn].
  - simpl. now rewrite filter_true.
  - replace (truthy (JInt n)) with true
      by (simpl; symmetry; apply negb_true_iff; now apply Z.eqb_neq).
    destruct (sqlite_int n); [ | reflexivity]. f_equal.
    destruct n; [contradiction | | ]; simpl;
      apply filter_ext; intros lead; apply Z.geb_leb.
Qed.

(** The size step applied to the rows the industry step kept. *)
Lemma select_then_size (industry : option string) (size : option Z)
    (table : list LeadModel.row) :
  Api.select_leads industry size table
  = (rows <- Api.select_leads industry None table ;;
     Api.select_leads None size rows).
Proof.
  unfold Api.select_leads.
  destruct industry as [i | ]; [destruct (truthy (JStr i)) | ];
    reflexivity.
Qed.




Lemma filter_event_data_supplied (industry : option string)
    (size : option Z) :
  Api.filter_event_data industry size
  = Spec.supplied_data (Spec.nonblank industry) (Spec.nonzero size).
Proof.
  unfold Api.filter_event_data, Spec.supplied_data, Spec.supplied_fields.
  destruct industry as [[ | c i] | ]; destruct size as [[ | p | p] | ];
    reflexivity.
Qed.

(** C8 as stated fails: a request with size=0 supplies a size that is not
    null, and the logged event has null data instead of the size field. *)
Lemma zero_size_is_not_logged :
  let db := mkDb [] [] in
  let out := Api.get_leads (fun _ => "") (fun _ => 0) None (Some 0) 7 db in
  Spec.supplied_data None (Some 0) = JObj [("size", JInt 0)]
  /\ events (fst out) = [EventModel.mk 1 "filter" JNull 7]
  /\ snd out = Ok200 [].
Proof.
  cbv zeta. repeat split.
Qed.

(** C8, amended: every successful leads-list request appends exactly one
    event, with action "filter", the time of the call, and as data the
    filter fields supplied with a non-empty industry and a non-zero size
    (null data when there is none); the leads table and the earlier events
    are unchanged. *)
Theorem get_leads_appends_filter_event :
  forall (isoformat : datetime -> string) (pick_rowid : list Z -> Z)
         (industry : option string) (size : option Z) (now : datetime)
         (db : Db) (body : list LeadResponse),
    snd (Api.get_leads isoformat pick_rowid industry size now db)
    = Ok200 body ->
    let db' := fst (Api.get_leads isoformat pick_rowid industry size now db) in
    leads db' = leads db
    /\ events db'
       = events db
         ++ [EventModel.mk
               (next_id pick_rowid (map EventModel.id (events db))) "filter"
               (Spec.supplied_data (Spec.nonblank industry)
                  (Spec.nonzero size))
               now].
Proof.
  intros isoformat pick_rowid industry size now db body Hok db'. subst db'.
  unfold Api.get_leads, add_event in *.
  rewrite filter_event_data_supplied.
  destruct (Api.select_leads industry size (leads db)) as [rows | e];
    [ | discriminate Hok].
  destruct (Api.response_leads isoformat rows); split; reflexivity.
Qed.

Lemma get_leads_appends_filter_event_witness :
  let lead :=
    LeadModel.mk 1 "Ada" "Acme" "Technology" 600 "Referral" 0 "High"
      (Some "A lead") in
  let db := mkDb [lead] [EventModel.mk 4 "toggle_view" JNull 3] in
  let out :=
    Api.get_leads (fun _ => "") (fun _ => 0) (Some "tech") (Some 0) 7 db in
  (exists body, snd out = Ok200 body)
  /\ events (fst out)
     = [EventModel.mk 4 "toggle_view" JNull 3;
        EventModel.mk 5 "filter" (JObj [("industry", JStr "tech")]) 7].
Proof.
  cbv zeta.
  match goal with
  | |- (exists body, ?o = _) /\ _ =>
      assert (Ha : o = Ok200
                         [mkLeadResponse "1" "Ada" "Acme" "Technology" 600
                            "Referral" "" "High" "A lead"])
        by reflexivity
  end.
  split; [eexists; exact Ha | ].
  exact (proj2 (get_leads_appends_filter_event _ _ _ _ _ _ _ Ha)).
Defined.

(** C9: in the leads-list endpoint an empty industry and a size of 0 are
    treated exactly as an absent parameter: the response and the database
    after the call, logged event included, are the same. *)
Theorem empty_filter_is_absent_filter :
  forall (isoformat : datetime -> string) (pick_rowid : list Z -> Z)
         (industry : option string) (size : option Z) (now : datetime)
         (db : Db),
    Api.get_leads isoformat pick_rowid (Some "") size now db
    = Api.get_leads isoformat pick_rowid None size now db
    /\ Api.get_leads isoformat pick_rowid industry (Some 0) now db
       = Api.get_leads isoformat pick_rowid industry None now db
    /\ Api.select_leads (Some "") (Some 0) (leads db) = Ret (leads db)
    /\ Api.filter_event_data (Some "") (Some 0) = JNull.
Proof.
  intros. repeat split.
Qed.

(** ** [POST /api/events] *)

(** C5: an event posted with no timestamp, an empty one, or one that
    [fromisoformat] rejects is stored with the time of the call as its
    timestamp; nothing else in the database changes, and when the payload
    passes the response validation the response carries that same time. *)
Theorem post_event_defaults_to_now :
  forall (fromisoformat : string -> option datetime)
         (isoformat : datetime -> string)
         (response_data : json -> option json)
         (pick_rowid : list Z -> Z)
         (event_data : EventData) (now : datetime) (db : Db),
    ed_timestamp event_data = None
    \/ ed_timestamp event_data = Some ""
    \/ (exists ts, ed_timestamp event_data = Some ts
                   /\ fromisoformat (replace_Z ts) = None) ->
    let out :=
      Api.post_event fromisoformat isoformat response_data pick_rowid
        event_data now db in
    let stored :=
      EventModel.mk (next_id pick_rowid (map EventModel.id (events db)))
        (ed_action event_data) (ed_data event_data) now in
    leads (fst out) = leads db
    /\ events (fst out) = events db ++ [stored]
    /\ (forall d, response_data (ed_data event_data) = Some d ->
          snd out
          = Ok200 (mkEventResponse (EventModel.id stored)
                     (ed_action event_data) d (isoformat now)))
    /\ (response_data (ed_data event_data) = None -> snd out = Http500).
Proof.
  intros fromisoformat isoformat response_data pick_rowid event_data now db H
    out stored.
  assert (Hts : Api.event_timestamp fromisoformat (ed_timestamp event_data) now
                = now).
  { unfold Api.event_timestamp.
    destruct H as [-> | [-> | [ts [-> Hparse]]]]; try reflexivity.
    rewrite Hparse. now destruct (truthy (JStr ts)). }
  subst out stored. unfold Api.post_event, add_event. rewrite Hts. simpl.
  destruct (response_data (ed_data event_data)) as [d | ]; simpl.
  - repeat split; try reflexivity.
    + intros d' Hd. now injection Hd as ->.
    + discriminate.
  - repeat split; try reflexivity. discriminate.
Qed.

Lemma post_event_defaults_to_now_witness :
  let event_data := mkEventData "toggle_view" JNull (Some "yesterday") in
  let parse := fun s : string => if (s =? "0")%string then Some 0 else None in
  (ed_timestamp event_data = None
   \/ ed_timestamp event_data = Some ""
   \/ (exists ts, ed_timestamp event_data = Some ts
                  /\ parse (replace_Z ts) = None))
  /\ events (fst (Api.post_event parse (fun _ => "") Some (fun _ => 0)
                    event_data 42 (mkDb [] [])))
     = [EventModel.mk 1 "toggle_view" JNull 42].
Proof.
  cbv zeta.
  assert (H : ed_timestamp (mkEventData "toggle_view" JNull (Some "yesterday"))
              = None
              \/ ed_timestamp
                   (mkEventData "toggle_view" JNull (Some "yesterday"))
                 = Some ""
              \/ (exists ts,
                    ed_timestamp
                      (mkEventData "toggle_view" JNull (Some "yesterday"))
                    = Some ts
                    /\ (fun s : string =>
                          if (s =? "0")%string then Some 0 else None)
                         (replace_Z ts) = None)).
  { right. right. exists "yesterday". split; reflexivity. }
  split; [exact H | ].
  exact (proj1 (proj2 (post_event_defaults_to_now _ (fun _ => "") Some
                         (fun _ => 0) _ 42 (mkDb [] []) H))).
Defined.

(** ** Grouped counts *)

Section GroupCount.

Lemma count_in_count_row (a key : string) (groups : list (string * Z)) :
  Spec.count_in a (Analytics.count_row key groups)
  = Spec.count_in a groups + (if (key =? a)%string then 1 else 0).
Proof.
  induction groups as [ | [k n] groups IH]; simpl.
  - destruct (key =? a)%string; reflexivity.
  - destruct (String.eqb_spec k key) as [-> | Hk]; simpl.
    + destruct (key =? a)%string; lia.
    + destruct (String.eqb_spec k a) as [-> | Ha].
      * apply String.eqb_neq in Hk. rewrite String.eqb_sym in Hk.
        rewrite Hk. lia.
      * exact IH.
Qed.

Lemma keys_count_row (a key : string) (groups : list (string * Z)) :
  In a (map fst (Analytics.count_row key groups))
  <-> a = key \/ In a (map fst groups).
Proof.
  induction groups as [ | [k n] groups IH]; simpl.
  - intuition.
  - destruct (String.eqb_spec k key) as [-> | Hk]; simpl.
    + intuition.
    + rewrite IH. intuition.
Qed.

Lemma NoDup_count_row (key : string) (groups : list (string * Z)) :
  NoDup (map fst groups) -> NoDup (map fst (Analytics.count_row key groups)).
Proof.
  induction groups as [ | [k n] groups IH]; simpl; intros Hnd.
  - constructor; [intros [] | constructor].
  - inversion Hnd as [ | x l Hnotin Hnd']; subst.
    destruct (String.eqb_spec k key) as [-> | Hk]; simpl.
    + now constructor.
    + constructor; [ | now apply IH].
      rewrite keys_count_row. intros [-> | Hin]; [now apply Hk | ].
      now apply Hnotin.
Qed.

Lemma positive_count_row (key : string) (groups : list (string * Z)) :
  Forall (fun row => 0 < snd row) groups ->
  Forall (fun row => 0 < snd row) (Analytics.count_row key groups).
Proof.
  induction 1 as [ | [k n] groups Hn Hrest IH]; simpl.
  - repeat constructor.
  - simpl in Hn. destruct (k =? key)%string; constructor; simpl; auto; lia.
Qed.

Lemma total_count_row (key : string) (groups : list (string * Z)) :
  Analytics.total_count (Analytics.count_row key groups)
  = Analytics.total_count groups + 1.
Proof.
  induction groups as [ | [k n] groups IH]; simpl; [reflexivity | ].
  destruct (k =? key)%string; simpl; [ | rewrite IH]; lia.
Qed.

(** What holds of the groups after any number of keys were counted. *)
Lemma fold_count_row (keys : list string) :
  forall groups,
    let groups' :=
      fold_left (fun g key => Analytics.count_row key g) keys groups in
    (NoDup (map fst groups) -> NoDup (map fst groups'))
    /\ (Forall (fun row => 0 < snd row) groups ->
        Forall (fun row => 0 < snd row) groups')
    /\ (forall a, Spec.count_in a groups'
                  = Spec.count_in a groups + Spec.occurrences a keys)
    /\ Analytics.total_count groups'
       = Analytics.total_count groups + Z.of_nat (List.length keys).
Proof.
  induction keys as [ | key keys IH]; intros groups; simpl.
  - unfold Spec.occurrences. simpl. repeat split; auto; intros; lia.
  - destruct (IH (Analytics.count_row key groups)) as [Hnd [Hpos [Hcnt Htot]]].
    repeat split.
    + intros H. now apply Hnd, NoDup_count_row.
    + intros H. now apply Hpos, positive_count_row.
    + intros a. rewrite Hcnt, count_in_count_row.
      unfold Spec.occurrences. simpl. rewrite (String.eqb_sym a key).
      destruct (key =? a)%string; simpl List.length; lia.
    + rewrite Htot, total_count_row. lia.
Qed.

Lemma group_count_facts (keys : list string) :
  NoDup (map fst (Analytics.group_count keys))
  /\ Forall (fun row => 0 < snd row) (Analytics.group_count keys)
  /\ (forall a, Spec.count_in a (Analytics.group_count keys)
                = Spec.occurrences a keys)
  /\ Analytics.total_count (Analytics.group_count keys)
     = Z.of_nat (List.length keys).
Proof.
  destruct (fold_count_row keys []) as [Hnd [Hpos [Hcnt Htot]]].
  repeat split.
  - apply Hnd. constructor.
  - apply Hpos. constructor.
  - intros a. exact (Hcnt a).
  - exact Htot.
Qed.

(** With distinct keys, the rows are the graph of [count_in]. *)
Lemma In_count_in (rows : list (string * Z)) (a : string) (n : Z) :
  NoDup (map fst rows) ->
  In (a, n) rows -> Spec.count_in a rows = n.
Proof.
  induction rows as [ | [k m] rows IH]; simpl; intros Hnd Hin; [easy | ].
  inversion Hnd as [ | x l Hnotin Hnd']; subst.
  destruct Hin as [Heq | Hin].
  - injection Heq as -> ->. now rewrite String.eqb_refl.
  - destruct (String.eqb_spec k a) as [-> | Hk]; [ | now apply IH].
    exfalso. apply Hnotin. now apply (in_map fst) in Hin.
Qed.

Lemma count_in_In (rows : list (string * Z)) (a : string) :
  Spec.count_in a rows <> 0 -> In (a, Spec.count_in a rows) rows.
Proof.
  induction rows as [ | [k m] rows IH]; simpl; intros Hn; [easy | ].
  destruct (String.eqb_spec k a) as [-> | Hk]; [now left | right; auto].
Qed.

Lemma total_count_perm (rows rows' : list (string * Z)) :
  Permutation rows rows' ->
  Analytics.total_count rows = Analytics.total_count rows'.
Proof.
  induction 1; simpl; lia.
Qed.

(** Every list of rows can be put in descending order of count. *)
Lemma order_by_count_exists (groups : list (string * Z)) :
  exists rows,
    Permutation groups rows /\ StronglySorted Analytics.count_ge rows.
Proof.
  induction groups as [ | x groups [rows [Hperm Hsorted]]].
  - exists []. split; constructor.
  - assert (Hins : exists rows',
               Permutation (x :: rows) rows'
               /\ StronglySorted Analytics.count_ge rows').
    { clear Hperm. induction Hsorted as [ | y rows Hs IH Hall].
      - exists [x]. split; [reflexivity | repeat constructor].
      - destruct (Z_ge_dec (snd x) (snd y)) as [Hge | Hlt].
        + exists (x :: y :: rows). split; [reflexivity | ].
          constructor; [now constructor | ].
          constructor; [exact Hge | ].
          eapply Forall_impl; [ | exact Hall].
          unfold Analytics.count_ge. intros r Hr. lia.
        + destruct IH as [rows' [Hperm' Hsorted']].
          exists (y :: rows'). split.
          * rewrite perm_swap. now constructor.
          * constructor; [exact Hsorted' | ].
            eapply Permutation_Forall; [exact Hperm' | ].
            constructor; [unfold Analytics.count_ge; lia | exact Hall]. }
    destruct Hins as [rows' [Hperm' Hsorted']].
    exists rows'. split; [ | exact Hsorted'].
    rewrite <- Hperm'. now constructor.
Qed.

End GroupCount.

Lemma count_in_perm (groups rows : list (string * Z)) (a : string) :
  NoDup (map fst groups) -> Permutation groups rows ->
  Spec.count_in a rows = Spec.count_in a groups.
Proof.
  intros Hnd Hperm.
  assert (Hnd' : NoDup (map fst rows)).
  { eapply Permutation_NoDup; [ | exact Hnd]. now apply Permutation_map. }
  destruct (Z.eq_dec (Spec.count_in a groups) 0) as [Hz | Hnz].
  - destruct (Z.eq_dec (Spec.count_in a rows) 0) as [Hz' | Hnz']; [lia | ].
    apply count_in_In in Hnz'.
    apply (Permutation_in _ (Permutation_sym Hperm)) in Hnz'.
    now apply In_count_in in Hnz'.
  - apply count_in_In in Hnz.
    apply (Permutation_in _ Hperm) in Hnz.
    now apply In_count_in in Hnz.
Qed.

Lemma sorted_positions (rows : list (string * Z)) :
  StronglySorted Analytics.count_ge rows ->
  forall i j a b,
    (i < j)%nat -> nth_error rows i = Some a -> nth_error rows j = Some b ->
    snd b <= snd a.
Proof.
  induction 1 as [ | x rows Hs IH Hall]; intros i j a b Hij Hi Hj.
  - destruct i; discriminate Hi.
  - destruct j as [ | j]; [lia | ]. simpl in Hj.
    destruct i as [ | i]; simpl in Hi.
    + injection Hi as <-. apply nth_error_In in Hj.
      rewrite Forall_forall in Hall. specialize (Hall b Hj).
      unfold Analytics.count_ge in Hall. lia.
    + apply (IH i j); [lia | assumption | assumption].
Qed.

(** ** The action-frequency report *)

(** The query of the report has a result for every event table. *)
Lemma action_counts_exists (events : list EventModel.row) :
  exists rows, Analytics.action_counts events rows.
Proof.
  apply order_by_count_exists.
Qed.

(** *** The order of strings *)

Lemma ltb_trans (a b c : string) :
  String.ltb a b = true -> String.ltb b c = true -> String.ltb a c = true.
Proof.
  unfold String.ltb.
  destruct (String.compare a b) eqn:Hab; try discriminate.
  destruct (String.compare b c) eqn:Hbc; try discriminate. intros _ _.
  apply OrderedTypeEx.String_as_OT.cmp_lt in Hab.
  apply OrderedTypeEx.String_as_OT.cmp_lt in Hbc.
  pose proof (OrderedTypeEx.String_as_OT.lt_trans _ _ _ Hab Hbc) as H.
  apply OrderedTypeEx.String_as_OT.cmp_lt in H.
  unfold OrderedTypeEx.String_as_OT.cmp in H. now rewrite H.
Qed.

Lemma ltb_asym (a b : string) :
  String.ltb a b = true -> String.ltb b a = false.
Proof.
  unfold String.ltb. rewrite (String.compare_antisym b a).
  destruct (String.compare a b); simpl; congruence.
Qed.

Lemma ltb_total (a b : string) :
  String.ltb a b = false -> a <> b -> String.ltb b a = true.
Proof.
  unfold String.ltb. rewrite (String.compare_antisym b a).
  destruct (String.compare a b) eqn:H; simpl; try congruence.
  intros _ Hne. apply String.compare_eq_iff in H. contradiction.
Qed.

(** *** The two sorts *)

Lemma insert_by_name_perm (row : string * Z) (rows : list (string * Z)) :
  Permutation (row :: rows) (Analytics.insert_by_name row rows).
Proof.
  induction rows as [ | r rows IH]; simpl; [reflexivity | ].
  destruct (String.ltb (fst r) (fst row)); [ | reflexivity].
  rewrite perm_swap. now constructor.
Qed.

Lemma by_name_perm (rows : list (string * Z)) :
  Permutation rows (Analytics.by_name rows).
Proof.
  induction rows as [ | row rows IH]; simpl; [constructor | ].
  rewrite <- insert_by_name_perm. now constructor.
Qed.

Lemma insert_by_name_sorted (row : string * Z) (rows : list (string * Z)) :
  ~ In (fst row) (map fst rows) ->
  StronglySorted Spec.name_lt rows ->
  StronglySorted Spec.name_lt (Analytics.insert_by_name row rows).
Proof.
  intros Hnot Hs. induction Hs as [ | r rest Hs IH Hall]; simpl.
  - repeat constructor.
  - destruct (String.ltb (fst r) (fst row)) eqn:Hlt.
    + constructor.
      * apply IH. intros Hin. apply Hnot. now right.
      * eapply Permutation_Forall; [apply insert_by_name_perm | ].
        constructor; [exact Hlt | exact Hall].
    + assert (Hrow : Spec.name_lt row r).
      { apply ltb_total; [exact Hlt | ].
        intros Heq. apply Hnot. now left. }
      constructor; [now constructor | ]. constructor; [exact Hrow | ].
      eapply Forall_impl; [ | exact Hall]. intros x Hx.
      unfold Spec.name_lt in *. eapply ltb_trans; eassumption.
Qed.

Lemma by_name_sorted (rows : list (string * Z)) :
  NoDup (map fst rows) -> StronglySorted Spec.name_lt (Analytics.by_name rows).
Proof.
  induction rows as [ | row rows IH]; simpl; intros Hnd; [constructor | ].
  inversion Hnd as [ | x l Hnotin Hnd']; subst.
  apply insert_by_name_sorted; [ | now apply IH].
  intros Hin. apply Hnotin.
  eapply Permutation_in; [ | exact Hin].
  apply Permutation_sym, Permutation_map, by_name_perm.
Qed.

Lemma insert_by_count_perm (row : string * Z) (rows : list (string * Z)) :
  Permutation (row :: rows) (Analytics.insert_by_count row rows).
Proof.
  induction rows as [ | r rows IH]; simpl; [reflexivity | ].
  destruct (snd r >? snd row); [ | reflexivity].
  rewrite perm_swap. now constructor.
Qed.

Lemma by_count_desc_perm (rows : list (string * Z)) :
  Permutation rows (Analytics.by_count_desc rows).
Proof.
  induction rows as [ | row rows IH]; simpl; [constructor | ].
  rewrite <- insert_by_count_perm. now constructor.
Qed.

(** A row whose name is below the names of sorted rows goes before the
    rows of its count. *)
Lemma insert_by_count_sorted (row : string * Z) (rows : list (string * Z)) :
  Forall (Spec.name_lt row) rows ->
  StronglySorted Spec.listed_before rows ->
  StronglySorted Spec.listed_before (Analytics.insert_by_count row rows).
Proof.
  intros Hlt Hs. induction Hs as [ | r rest Hs IH Hall]; simpl.
  - repeat constructor.
  - inversion Hlt as [ | ? ? Hr Hrest]; subst.
    destruct (Z.gtb_spec (snd r) (snd row)) as [Hgt | Hle].
    + constructor; [now apply IH | ].
      eapply Permutation_Forall; [apply insert_by_count_perm | ].
      constructor; [left; lia | exact Hall].
    + constructor; [now constructor | ].
      constructor.
      * destruct (Z.eq_dec (snd r) (snd row)) as [He | Hne];
          [right; now split | left; lia].
      * rewrite Forall_forall in *. intros x Hx.
        specialize (Hall x Hx). specialize (Hrest x Hx).
        destruct (Z.eq_dec (snd x) (snd row)) as [He | Hne];
          [right; now split | left].
        destruct Hall as [Hc | [Hc _]]; lia.
Qed.

Lemma by_count_desc_sorted (rows : list (string * Z)) :
  StronglySorted Spec.name_lt rows ->
  StronglySorted Spec.listed_before (Analytics.by_count_desc rows).
Proof.
  induction 1 as [ | row rows Hs IH Hall]; simpl; [constructor | ].
  apply insert_by_count_sorted; [ | exact IH].
  eapply Permutation_Forall; [apply by_count_desc_perm | exact Hall].
Qed.

(** *** What the order fixes *)

Lemma listed_before_asym (a b : string * Z) :
  Spec.listed_before a b -> Spec.listed_before b a -> False.
Proof.
  unfold Spec.listed_before, Spec.name_lt.
  intros [H1 | [H1 H1']] [H2 | [H2 H2']]; try lia.
  apply ltb_asym in H1'. congruence.
Qed.

(** Two lists in this order that hold the same rows are equal. *)
Lemma listed_before_unique (l1 l2 : list (string * Z)) :
  StronglySorted Spec.listed_before l1 ->
  StronglySorted Spec.listed_before l2 ->
  Permutation l1 l2 -> l1 = l2.
Proof.
  intros H1. revert l2.
  induction H1 as [ | x l1 Hs IH Hall]; intros l2 H2 Hperm.
  - apply Permutation_nil in Hperm. now subst.
  - destruct H2 as [ | y l2 Hs2 Hall2].
    + apply Permutation_sym, Permutation_nil in Hperm. discriminate Hperm.
    + assert (Hxy : x = y).
      { assert (Hx : In x (y :: l2))
          by (apply (Permutation_in _ Hperm); now left).
        assert (Hy : In y (x :: l1))
          by (apply (Permutation_in _ (Permutation_sym Hperm)); now left).
        destruct Hx as [Hx | Hx]; [now symmetry | ].
        destruct Hy as [Hy | Hy]; [exact Hy | ].
        rewrite Forall_forall in Hall, Hall2.
        elim (listed_before_asym x y); auto. }
      subst y. f_equal. apply IH; [exact Hs2 | ].
      eapply Permutation_cons_inv; exact Hperm.
Qed.

Lemma listed_before_positions (rows : list (string * Z)) :
  StronglySorted Spec.listed_before rows ->
  forall i j a b,
    (i < j)%nat -> nth_error rows i = Some a -> nth_error rows j = Some b ->
    Spec.listed_before a b.
Proof.
  induction 1 as [ | x rows Hs IH Hall]; intros i j a b Hij Hi Hj.
  - destruct i; discriminate Hi.
  - destruct j as [ | j]; [lia | ]. simpl in Hj.
    destruct i as [ | i]; simpl in Hi.
    + injection Hi as <-. apply nth_error_In in Hj.
      rewrite Forall_forall in Hall. now apply Hall.
    + apply (IH i j); [lia | assumption | assumption].
Qed.

Lemma listed_before_checks (rows : list (string * Z)) :
  StronglySorted Spec.listed_before rows ->
  StronglySorted Analytics.count_ge rows
  /\ Analytics.count_desc_sorted rows = true
  /\ Spec.ties_ascending rows = true.
Proof.
  induction 1 as [ | a rows Hs [IH1 [IH2 IH3]] Hall].
  - split; [constructor | split; reflexivity].
  - split; [ | split].
    + constructor; [exact IH1 | ].
      eapply Forall_impl; [ | exact Hall].
      unfold Spec.listed_before, Analytics.count_ge.
      intros b [Hb | [Hb _]]; lia.
    + cbn [Analytics.count_desc_sorted]. rewrite IH2, andb_true_r.
      apply forallb_forall. intros b Hb.
      rewrite Forall_forall in Hall. specialize (Hall b Hb).
      apply Z.geb_le. destruct Hall as [Hc | [Hc _]]; lia.
    + cbn [Spec.ties_ascending]. rewrite IH3, andb_true_r.
      apply forallb_forall. intros b Hb.
      rewrite Forall_forall in Hall. specialize (Hall b Hb).
      destruct Hall as [Hc | [Hc Hn]].
      * replace (snd a =? snd b) with false; [reflexivity | ].
        symmetry. apply Z.eqb_neq. lia.
      * unfold Spec.name_lt in Hn. rewrite Hn. apply orb_true_r.
Qed.

(** The groups of [GROUP BY]: each key that occurs, with the number of its
    occurrences. *)
Lemma group_count_In (keys : list string) (a : string) (n : Z) :
  In (a, n) (Analytics.group_count keys)
  <-> n = Spec.occurrences a keys /\ 0 < n.
Proof.
  destruct (group_count_facts keys) as [Hnd [Hpos [Hcnt _]]].
  split.
  - intros Hin. split.
    + rewrite <- Hcnt. symmetry. now apply In_count_in.
    + rewrite Forall_forall in Hpos. exact (Hpos _ Hin).
  - intros [-> Hn]. rewrite <- Hcnt. apply count_in_In. rewrite Hcnt. lia.
Qed.

Lemma group_count_perm (keys keys' : list string) :
  (forall a, Spec.occurrences a keys' = Spec.occurrences a keys) ->
  Permutation (Analytics.group_count keys') (Analytics.group_count keys).
Proof.
  intros Hocc.
  destruct (group_count_facts keys) as [Hnd _].
  destruct (group_count_facts keys') as [Hnd' _].
  apply NoDup_Permutation.
  - now apply NoDup_map_inv in Hnd'.
  - now apply NoDup_map_inv in Hnd.
  - intros [a n]. rewrite !group_count_In, Hocc. reflexivity.
Qed.

Lemma action_frequency_sorted (events : list EventModel.row) :
  Permutation (Analytics.group_count (map EventModel.action events))
    (Analytics.action_frequency events)
  /\ StronglySorted Spec.listed_before (Analytics.action_frequency events).
Proof.
  unfold Analytics.action_frequency. split.
  - rewrite <- by_count_desc_perm. apply by_name_perm.
  - apply by_count_desc_sorted, by_name_sorted.
    now destruct (group_count_facts (map EventModel.action events)).
Qed.

(** C6: the action-frequency report lists each action that has events
    exactly once, with the number of its events, in descending order of
    count, and actions of equal count in ascending order of name: of two
    rows the earlier has the larger count, or the same count and the
    smaller name. The rows are a result of the query of the report, and
    they are the same for any two event tables in which every action has
    the same number of events. *)
Theorem action_frequency_ties_by_name :
  forall events : list EventModel.row,
    let rows := Analytics.action_frequency events in
    Analytics.action_counts events rows
    /\ Analytics.count_desc_sorted rows = true
    /\ Spec.ties_ascending rows = true
    /\ (forall i j a b,
          (i < j)%nat ->
          nth_error rows i = Some a -> nth_error rows j = Some b ->
          snd b < snd a
          \/ (snd b = snd a /\ String.ltb (fst a) (fst b) = true))
    /\ NoDup (map fst rows)
    /\ (forall action n,
          In (action, n) rows
          <-> n = Spec.occurrences action (map EventModel.action events)
              /\ 0 < n)
    /\ (forall events' : list EventModel.row,
          (forall action,
              Spec.occurrences action (map EventModel.action events')
              = Spec.occurrences action (map EventModel.action events)) ->
          Analytics.action_frequency events' = rows).
Proof.
  intros events rows.
  destruct (action_frequency_sorted events) as [Hperm Hsorted].
  fold rows in Hperm, Hsorted.
  destruct (listed_before_checks rows Hsorted) as [Hge [Hdesc Hties]].
  split; [split; assumption | ].
  split; [exact Hdesc | ]. split; [exact Hties | ].
  split; [exact (listed_before_positions rows Hsorted) | ].
  split; [ | split].
  - destruct (group_count_facts (map EventModel.action events)) as [Hnd _].
    eapply Permutation_NoDup; [ | exact Hnd]. now apply Permutation_map.
  - intros action n. rewrite <- group_count_In. split.
    + apply Permutation_in. now apply Permutation_sym.
    + now apply Permutation_in.
  - intros events' Hocc.
    destruct (action_frequency_sorted events') as [Hperm' Hsorted'].
    apply listed_before_unique; [exact Hsorted' | exact Hsorted | ].
    rewrite <- Hperm', <- Hperm. now apply group_count_perm.
Qed.

(** The report over three actions: a tie between "view" and "export" is
    listed with "export" first, in whatever order the events came. *)
Lemma action_frequency_ties_by_name_witness :
  let event := fun id action => EventModel.mk id action JNull 0 in
  let events :=
    [event 1 "view"; event 2 "filter"; event 3 "export"; event 4 "filter"] in
  let events' :=
    [event 9 "export"; event 8 "filter"; event 7 "filter"; event 6 "view"] in
  Analytics.action_frequency events
  = [("filter", 2); ("export", 1); ("view", 1)]
  /\ Analytics.action_frequency events' = Analytics.action_frequency events.
Proof.
  cbv zeta. split; [reflexivity | ].
  apply (proj2 (proj2 (proj2 (proj2 (proj2 (proj2
           (action_frequency_ties_by_name
              [EventModel.mk 1 "view" JNull 0;
               EventModel.mk 2 "filter" JNull 0;
               EventModel.mk 3 "export" JNull 0;
               EventModel.mk 4 "filter" JNull 0]))))))).
  intros action. unfold Spec.occurrences. cbn [map EventModel.action filter].
  destruct (String.eqb action "export"), (String.eqb action "filter"),
    (String.eqb action "view"); reflexivity.
Defined.

(** ** The lead quality distribution *)

Lemma quality_lines_ok (total_leads : Z) (rows : list (string * Z)) :
  total_leads <> 0 ->
  exists lines,
    Analytics.quality_lines total_leads rows = Ret lines
    /\ map fst lines = rows
    /\ (Analytics.sum_percentages lines
        == inject_Z (Analytics.total_count rows) / inject_Z total_leads * 100)%Q.
Proof.
  intros Hnz. induction rows as [ | [quality count] rows IH].
  - exists []. simpl. split; [reflexivity | split; [reflexivity | ]].
    unfold Qdiv. ring.
  - destruct IH as [lines [Hrun [Hfst Hsum]]].
    simpl. unfold Analytics.percentage.
    destruct (Z.eqb_spec total_leads 0) as [Hz | _]; [contradiction | ].
    simpl. rewrite Hrun. simpl.
    eexists. split; [reflexivity | ]. split.
    + simpl. now rewrite Hfst.
    + simpl. rewrite Hsum, inject_Z_plus. field.
      intros Habs. apply Hnz.
      unfold Qeq in Habs. simpl in Habs. lia.
Qed.

Lemma count_of_count_in (quality : string) (lines : list (string * Z * Q)) :
  Analytics.count_of quality lines = Spec.count_in quality (map fst lines).
Proof.
  induction lines as [ | [[q n] pct] lines IH]; simpl; [reflexivity | ].
  now rewrite IH.
Qed.

(** C7: the report is produced for every lead table, with no division by
    zero; each line carries the number of leads of its quality; for a
    non-empty table the percentages add up to 100 in exact arithmetic; for
    an empty table the report has no line and every count is 0. *)
Theorem quality_percentages_sum_to_100 :
  forall (leads : list LeadModel.row) (rows : list (string * Z)),
    Analytics.quality_counts leads rows ->
    exists lines,
      Analytics.lead_quality_distribution rows = Ret lines
      /\ (forall quality,
            Analytics.count_of quality lines
            = Spec.occurrences quality (map LeadModel.quality leads))
      /\ (leads <> [] -> (Analytics.sum_percentages lines == 100)%Q)
      /\ (leads = [] ->
          lines = [] /\ forall quality, Analytics.count_of quality lines = 0).
Proof.
  intros leads rows Hperm. unfold Analytics.quality_counts in Hperm.
  unfold Analytics.query_result in Hperm.
  destruct (group_count_facts (map LeadModel.quality leads))
    as [Hnd [_ [Hcnt Htot]]].
  assert (Htotal : Analytics.total_count rows = Z.of_nat (List.length leads)).
  { rewrite <- (total_count_perm _ _ Hperm), Htot. now rewrite length_map. }
  destruct leads as [ | lead leads].
  - apply Permutation_nil in Hperm. subst rows.
    exists []. repeat split; try reflexivity. intros H. now elim H.
  - assert (Hnz : Analytics.total_count rows <> 0)
      by (rewrite Htotal; simpl List.length; lia).
    destruct (quality_lines_ok _ rows Hnz) as [lines [Hrun [Hfst Hsum]]].
    exists lines. split; [exact Hrun | ]. split; [ | split].
    + intros quality.
      rewrite count_of_count_in, Hfst, <- Hcnt.
      now apply count_in_perm.
    + intros _. rewrite Hsum. field.
      intros Habs. apply Hnz.
      unfold Qeq in Habs. simpl in Habs. lia.
    + discriminate.
Qed.

(** When each printed percentage is within [eps] of the exact one, the
    printed percentages of a report of [n] lines add up to 100 within
    [n * eps]. *)
Lemma shown_percentages_close (shown : Q -> Q) (eps : Q)
    (lines : list (string * Z * Q)) :
  (forall x, Qabs (shown x - x) <= eps)%Q ->
  (Qabs (Analytics.shown_sum shown lines - Analytics.sum_percentages lines)
   <= inject_Z (Z.of_nat (List.length lines)) * eps)%Q.
Proof.
  intros Hclose. induction lines as [ | line lines IH].
  - simpl. unfold Qle. simpl. lia.
  - change (Analytics.shown_sum shown (line :: lines))
      with (shown (snd line) + Analytics.shown_sum shown lines)%Q.
    change (Analytics.sum_percentages (line :: lines))
      with (snd line + Analytics.sum_percentages lines)%Q.
    setoid_replace
      (shown (snd line) + Analytics.shown_sum shown lines
       - (snd line + Analytics.sum_percentages lines))%Q
      with ((shown (snd line) - snd line)
            + (Analytics.shown_sum shown lines
               - Analytics.sum_percentages lines))%Q by ring.
    eapply Qle_trans; [apply Qabs_triangle | ].
    setoid_replace
      (inject_Z (Z.of_nat (List.length (line :: lines))) * eps)%Q
      with (eps + inject_Z (Z.of_nat (List.length lines)) * eps)%Q.
    + apply Qplus_le_compat; [apply Hclose | exact IH].
    + simpl List.length. rewrite Nat2Z.inj_succ, <- Z.add_1_l.
      rewrite inject_Z_plus. ring.
Qed.

Lemma quality_percentages_sum_to_100_witness :
  let lead := fun id size source quality =>
    LeadModel.mk id "Ada" "Acme" "Finance" size source 0 quality None in
  let leads :=
    [lead 1 600 "Referral" "High"; lead 2 150 "PPC" "Medium";
     lead 3 10 "Organic" "Low"] in
  let rows := [("Low", 1); ("High", 1); ("Medium", 1)] in
  Analytics.quality_counts leads rows
  /\ exists lines,
       Analytics.lead_quality_distribution rows = Ret lines
       /\ (Analytics.sum_percentages lines == 100)%Q.
Proof.
  cbv zeta.
  match goal with
  | |- ?P /\ _ =>
      assert (H : P) by (apply Permutation_sym, Permutation_cons_append)
  end.
  split; [exact H | ].
  destruct (quality_percentages_sum_to_100 _ _ H)
    as [lines [Hrun [_ [Hsum _]]]].
  exists lines. split; [exact Hrun | ].
  apply Hsum. discriminate.
Defined.

(** ** Filter usage patterns *)

Lemma filter_loop_app (events1 events2 : list EventModel.row)
    (acc : list (json * Z) * list json) :
  Analytics.filter_loop (events1 ++ events2) acc
  = (acc' <- Analytics.filter_loop events1 acc ;;
     Analytics.filter_loop events2 acc').
Proof.
  revert acc. induction events1 as [ | event events1 IH]; intros acc; simpl.
  - reflexivity.
  - destruct (Analytics.filter_step event acc) as [acc' | e]; simpl;
      [apply IH | reflexivity].
Qed.

(** The guard [if event.data:] skips the payloads that are false in a
    test: null, 0, false, and the empty string, list and dict. *)
Lemma falsy_payload_skipped (event : EventModel.row)
    (acc : list (json * Z) * list json) :
  truthy (EventModel.data event) = false ->
  Analytics.filter_step event acc = Ret acc.
Proof.
  intros H. unfold Analytics.filter_step. destruct acc. now rewrite H.
Qed.

(** A filter event whose payload is a non-zero number makes the loop
    raise. *)
Lemma number_payload_raises (event : EventModel.row) (n : Z)
    (acc : list (json * Z) * list json) :
  EventModel.data event = JInt n -> n <> 0 ->
  Analytics.filter_step event acc = Raise TypeError.
Proof.
  intros Hdata Hn. unfold Analytics.filter_step. destruct acc.
  rewrite Hdata. simpl.
  destruct (Z.eqb_spec n 0) as [Hz | _]; [contradiction | reflexivity].
Qed.

(** Wherever such an event is in the table, the whole report fails. *)
Lemma number_payload_aborts_report (before after : list EventModel.row)
    (event : EventModel.row) (n : Z) :
  Analytics.is_filter event = true ->
  EventModel.data event = JInt n -> n <> 0 ->
  exists e, Analytics.filter_usage (before ++ event :: after) = Raise e.
Proof.
  intros Hf Hdata Hn. unfold Analytics.filter_usage.
  rewrite filter_app. simpl. rewrite Hf.
  rewrite filter_loop_app.
  destruct (Analytics.filter_loop (filter Analytics.is_filter before) ([], []))
    as [acc | e]; simpl.
  - rewrite (number_payload_raises event n acc Hdata Hn). simpl. now exists TypeError.
  - now exists e.
Qed.

(** The fallback loop of [get_industry_filter_usage] does skip a row whose
    payload does not decode, or decodes to something that is not a dict. *)
Lemma usage_step_skips_malformed (json_loads : string -> option json)
    (text : string) (industry_counts : list (json * Z)) :
  json_loads text = None
  \/ (exists data, json_loads text = Some data
                   /\ forall fields, data <> JObj fields) ->
  Analytics.usage_step json_loads (Some text) industry_counts
  = Ret industry_counts.
Proof.
  intros H. unfold Analytics.usage_step.
  destruct (truthy (JStr text)); [ | reflexivity].
  destruct H as [-> | [data [-> Hdata]]]; [reflexivity | ].
  destruct data; try reflexivity.
  now elim (Hdata fields).
Qed.

(** C3 fails on the code: the report over two well-formed filter events
    is produced, and with one more filter event whose payload is the
    number 5 the aggregation raises [TypeError] instead of skipping it. *)
Theorem malformed_payload_not_skipped :
  let e1 := EventModel.mk 1 "filter" (JObj [("industry", JStr "Finance")]) 0 in
  let e2 :=
    EventModel.mk 2 "filter"
      (JObj [("industry", JStr "Finance"); ("size", JInt 100)]) 0 in
  let bad := EventModel.mk 3 "filter" (JInt 5) 0 in
  Analytics.filter_usage [e1; e2]
  = Ret (Analytics.mkFilterUsage [(JStr "Finance", 2)]
           (Some (inject_Z 100 / inject_Z 1)%Q))
  /\ Analytics.filter_usage [e1; bad; e2] = Raise TypeError
  /\ Analytics.filter_usage
       [e1; EventModel.mk 3 "filter" (JStr "size=5") 0; e2]
     = Raise TypeError.
Proof.
  cbv zeta. repeat split.
Qed.

(** ** Worked examples *)

Example classify_three_leads :
  map (fun lead : Z * string =>
         Classifier.quality_of
           (Classifier.enhance_lead_with_llm false Classifier.LlmRaises
              "Ada" "Acme" "Finance" (fst lead) (snd lead)))
    [(600, "Referral"); (150, "PPC"); (10, "Organic")]
  = [Ret (JStr "High"); Ret (JStr "Medium"); Ret (JStr "Low")].
Proof. reflexivity. Qed.

Example summary_sentence :
  Classifier.rule_summary "Acme" "Finance" 120 "PPC"
  = "Lead from Acme in Finance industry with 120 employees. Source: PPC.".
Proof. reflexivity. Qed.

Example tech_matches_technology :
  Sql.ilike "Technology" "%tech%" = true
  /\ Sql.ilike "Finance" "%tech%" = false
  /\ Sql.ilike "Technology" "%T_CH%" = true.
Proof. repeat split. Qed.

Example filter_usage_counts :
  let event := fun id industry =>
    EventModel.mk id "filter" (JObj [("industry", JStr industry)]) 0 in
  Analytics.filter_usage
    [event 1 "Finance"; event 2 "Healthcare"; EventModel.mk 3 "view" JNull 0;
     event 4 "Healthcare"; event 5 "Healthcare"]
  = Ret (Analytics.mkFilterUsage
           [(JStr "Healthcare", 3); (JStr "Finance", 1)] None).
Proof. reflexivity. Qed.

(* ================================================================== *)
(** * Further properties *)

(** ** The classifier *)

(** X1: whenever the rule-based path answers (no LLM configured, or the LLM
    call raised), the quality is one of High, Medium and Low. *)
Theorem rule_based_answer_is_tiered :
  forall (available : bool) (llm : Classifier.llm_outcome)
         (name company industry : string) (size : Z) (source : string),
    available = false \/ llm = Classifier.LlmRaises ->
    Classifier.quality_in_tiers
      (Classifier.enhance_lead_with_llm available llm name company industry
         size source)
    = true.
Proof.
  intros available llm name company industry size source H.
  assert (Hrule : Classifier.enhance_lead_with_llm available llm name company
                    industry size source
                  = Classifier.rule_based company industry size source).
  { destruct H as [-> | ->]; [reflexivity | now destruct available]. }
  rewrite Hrule. unfold Classifier.quality_in_tiers, Classifier.rule_based.
  simpl. unfold Classifier.rule_quality.
  destruct (_ && _); [reflexivity | ]. destruct (_ && _); reflexivity.
Qed.

Lemma rule_based_answer_is_tiered_witness :
  (true = false \/ Classifier.LlmRaises = Classifier.LlmRaises)
  /\ Classifier.quality_in_tiers
       (Classifier.enhance_lead_with_llm true Classifier.LlmRaises
          "Ada" "Acme" "Finance" 40 "Email")
     = true.
Proof.
  split; [now right | ].
  apply rule_based_answer_is_tiered. now right.
Defined.

Lemma rule_quality_rank (size : Z) (source : string) :
  Order.tier_rank (JStr (Classifier.rule_quality size source))
  = if (size >=? 500)
       && Classifier.in_list source ["Referral"; "Trade Show"] then 2
    else if (size >=? 100) && negb (Classifier.in_list source ["Organic"])
    then 1 else 0.
Proof.
  unfold Classifier.rule_quality.
  destruct (_ && _); [reflexivity | ]. destruct (_ && _); reflexivity.
Qed.

(** X2: with no LLM and a fixed source, a larger company never gets a lower
    tier. *)
Theorem default_quality_monotone_in_size :
  forall (llm1 llm2 : Classifier.llm_outcome)
         (name1 company1 industry1 name2 company2 industry2 : string)
         (size1 size2 : Z) (source : string),
    size1 <= size2 ->
    exists q1 q2,
      Classifier.quality_of
        (Classifier.enhance_lead_with_llm false llm1 name1 company1 industry1
           size1 source) = Ret q1
      /\ Classifier.quality_of
           (Classifier.enhance_lead_with_llm false llm2 name2 company2
              industry2 size2 source) = Ret q2
      /\ Order.tier_rank q1 <= Order.tier_rank q2.
Proof.
  intros llm1 llm2 n1 c1 i1 n2 c2 i2 size1 size2 source Hle.
  exists (JStr (Classifier.rule_quality size1 source)),
         (JStr (Classifier.rule_quality size2 source)).
  split; [reflexivity | ]. split; [reflexivity | ].
  rewrite !rule_quality_rank.
  destruct (Classifier.in_list source ["Referral"; "Trade Show"]);
    destruct (Classifier.in_list source ["Organic"]);
    rewrite ?andb_true_r, ?andb_false_r; cbn [negb];
    rewrite ?andb_true_r, ?andb_false_r;
    destruct (Z.geb_spec size1 500), (Z.geb_spec size2 500),
             (Z.geb_spec size1 100), (Z.geb_spec size2 100); lia.
Qed.

Lemma default_quality_monotone_in_size_witness :
  120 <= 700
  /\ exists q1 q2,
       Classifier.quality_of
         (Classifier.enhance_lead_with_llm false Classifier.LlmRaises
            "Ada" "Acme" "Finance" 120 "Referral") = Ret q1
       /\ Classifier.quality_of
            (Classifier.enhance_lead_with_llm false Classifier.LlmRaises
               "Bob" "Bank" "Retail" 700 "Referral") = Ret q2
       /\ Order.tier_rank q1 <= Order.tier_rank q2.
Proof.
  split; [lia | ].
  apply default_quality_monotone_in_size. lia.
Defined.

(** ** [get_lead_by_id] *)

Lemma find_by_id_none (lead_id : Z) (table : list LeadModel.row) :
  Lookup.first_by_id lead_id table = None
  <-> ~ In lead_id (map LeadModel.id table).
Proof.
  unfold Lookup.first_by_id.
  induction table as [ | lead table IH]; simpl.
  - intuition.
  - destruct (Z.eqb_spec (LeadModel.id lead) lead_id) as [Heq | Hne].
    + split; [discriminate | ]. intros H. elim H. now left.
    + rewrite IH. intuition.
Qed.

(** X3: [get_lead_by_id] raises [OverflowError] when the id is not a
    64-bit integer. For an id that is one, it answers with an error payload
    exactly when no stored lead has the id; otherwise the payload carries
    the requested id and no error field. *)
Theorem get_lead_by_id_error_iff_absent :
  forall (isoformat : datetime -> string) (lead_id : Z)
         (table : list LeadModel.row),
    (sqlite_int lead_id = false ->
     Lookup.get_lead_by_id isoformat lead_id table = Raise OverflowError)
    /\ (sqlite_int lead_id = true ->
        ~ In lead_id (map LeadModel.id table) ->
        Lookup.get_lead_by_id isoformat lead_id table
        = Ret (JObj [("error",
                      JStr ("Lead with ID " ++ str_of_int lead_id
                            ++ " not found"))]))
    /\ (sqlite_int lead_id = true ->
        In lead_id (map LeadModel.id table) ->
        (payload <- Lookup.get_lead_by_id isoformat lead_id table ;;
         subscript payload "id")
        = Ret (JInt lead_id)
        /\ (payload <- Lookup.get_lead_by_id isoformat lead_id table ;;
            subscript payload "error")
           = Raise KeyError).
Proof.
  intros isoformat lead_id table. unfold Lookup.get_lead_by_id.
  split; [ | split].
  - intros ->. reflexivity.
  - intros -> H. apply find_by_id_none in H. now rewrite H.
  - intros -> H.
    destruct (Lookup.first_by_id lead_id table) as [lead | ] eqn:Hfind.
    + apply find_some in Hfind. destruct Hfind as [_ Hid].
      apply Z.eqb_eq in Hid. subst lead_id. split; reflexivity.
    + apply find_by_id_none in Hfind. contradiction.
Qed.

Lemma get_lead_by_id_error_iff_absent_witness :
  let lead :=
    LeadModel.mk 7 "Ada" "Acme" "Finance" 600 "Referral" 0 "High" None in
  (sqlite_int 7 = true /\ In 7 (map LeadModel.id [lead])
   /\ (payload <- Lookup.get_lead_by_id (fun _ => "") 7 [lead] ;;
       subscript payload "id")
      = Ret (JInt 7))
  /\ (sqlite_int (2 ^ 63) = false
      /\ Lookup.get_lead_by_id (fun _ => "") (2 ^ 63) [lead]
         = Raise OverflowError).
Proof.
  cbv zeta.
  assert (H7 : sqlite_int 7 = true) by reflexivity.
  assert (Hbig : sqlite_int (2 ^ 63) = false) by reflexivity.
  match goal with
  | |- (_ /\ ?P /\ _) /\ _ => assert (H : P) by (now left)
  end.
  split.
  - split; [exact H7 | ]. split; [exact H | ].
    exact (proj1 (proj2 (proj2 (get_lead_by_id_error_iff_absent
                                  (fun _ => "") 7 _)) H7 H)).
  - split; [exact Hbig | ].
    exact (proj1 (get_lead_by_id_error_iff_absent (fun _ => "") (2 ^ 63) _)
             Hbig).
Defined.

(** X4: when the ids of the table are distinct, every stored lead is
    returned by a lookup of its own id, with its own fields (the id of a
    stored lead is a 64-bit integer; for any other the lookup raises). *)
Theorem get_lead_by_id_finds_stored :
  forall (isoformat : datetime -> string) (table : list LeadModel.row)
         (lead : LeadModel.row),
    NoDup (map LeadModel.id table) ->
    In lead table ->
    Lookup.get_lead_by_id isoformat (LeadModel.id lead) table
    = if sqlite_int (LeadModel.id lead)
      then Ret (Lookup.lead_payload isoformat lead)
      else Raise OverflowError.
Proof.
  intros isoformat table lead Hnd Hin.
  unfold Lookup.get_lead_by_id.
  destruct (sqlite_int (LeadModel.id lead)); [ | reflexivity].
  assert (Hfind : Lookup.first_by_id (LeadModel.id lead) table = Some lead).
  { unfold Lookup.first_by_id.
    induction table as [ | row table IH]; [contradiction | ].
    simpl in Hnd. inversion Hnd as [ | x l Hnotin Hnd']; subst.
    simpl. destruct (Z.eqb_spec (LeadModel.id row) (LeadModel.id lead))
      as [Heq | Hne].
    - destruct Hin as [-> | Hin]; [reflexivity | ].
      exfalso. apply Hnotin. rewrite Heq. now apply in_map.
    - destruct Hin as [-> | Hin]; [contradiction | now apply IH]. }
  now rewrite Hfind.
Qed.

Lemma get_lead_by_id_finds_stored_witness :
  let a := LeadModel.mk 1 "Ada" "Acme" "Finance" 600 "Referral" 0 "High" None in
  let b := LeadModel.mk 2 "Bob" "Bank" "Retail" 20 "PPC" 0 "Low" (Some "s") in
  NoDup (map LeadModel.id [a; b]) /\ In b [a; b]
  /\ (payload <- Lookup.get_lead_by_id (fun _ => "") 2 [a; b] ;;
      subscript payload "company")
     = Ret (JStr "Bank").
Proof.
  cbv zeta.
  match goal with
  | |- ?P /\ ?Q /\ _ =>
      assert (Hnd : P)
        by (simpl; constructor;
            [intros [H | []]; discriminate H
            | constructor; [intros [] | constructor]]);
      assert (Hin : Q) by (right; now left)
  end.
  split; [exact Hnd | ]. split; [exact Hin | ].
  change 2 with (LeadModel.id
                   (LeadModel.mk 2 "Bob" "Bank" "Retail" 20 "PPC" 0 "Low"
                      (Some "s"))) at 1.
  rewrite (get_lead_by_id_finds_stored (fun _ => "") _ _ Hnd Hin).
  reflexivity.
Defined.

(** ** More on [GET /api/leads] *)


(** X5: the industry filter and the size filter are independent: filtering
    by both is filtering by one and then by the other, in either order. *)
Theorem industry_and_size_filters_commute :
  forall (industry : option string) (size : option Z)
         (table : list LeadModel.row),
    Api.select_leads industry size table
    = (rows <- Api.select_leads industry None table ;;
       Api.select_leads None size rows)
    /\ Api.select_leads industry size table
       = (rows <- Api.select_leads None size table ;;
          Api.select_leads industry None rows).
Proof.
  intros industry size table.
  destruct (select_industry_only industry) as [keep Hkeep].
  rewrite (select_then_size industry size table).
  split; [reflexivity | ].
  rewrite Hkeep. cbn [bind].
  rewrite (select_size_only size table), (select_size_only size (filter keep table)).
  destruct (Spec.size_ok size); [ | reflexivity]. cbn [bind].
  rewrite Hkeep, !filter_filter. f_equal.
  apply filter_ext. intros lead. apply andb_comm.
Qed.

(** X6: a size filter only removes leads, and a larger minimum size lists
    no lead that a smaller one, itself a 64-bit integer, does not list. *)
Theorem larger_size_filter_lists_fewer :
  forall (industry : option string) (n m : Z) (table : list LeadModel.row)
         (rows_m : list LeadModel.row) (lead : LeadModel.row),
    n <= m -> m <> 0 -> sqlite_int n = true ->
    Api.select_leads industry (Some m) table = Ret rows_m ->
    In lead rows_m ->
    (exists rows_n,
       Api.select_leads industry (Some n) table = Ret rows_n
       /\ In lead rows_n)
    /\ (exists rows,
          Api.select_leads industry None table = Ret rows /\ In lead rows)
    /\ In lead table.
Proof.
  intros industry n m table rows_m lead Hle Hm Hn Hsel Hin.
  destruct (select_industry_only industry) as [keep Hkeep].
  rewrite (select_then_size industry (Some m) table), Hkeep in Hsel.
  cbn [bind] in Hsel. rewrite select_size_only in Hsel.
  destruct (Spec.size_ok (Some m)); [ | discriminate Hsel].
  injection Hsel as <-.
  rewrite (select_then_size industry (Some n) table), !Hkeep. cbn [bind].
  rewrite select_size_only. unfold Spec.size_ok. rewrite Hn.
  rewrite !filter_In in Hin. destruct Hin as [[Hin Hk] Hs].
  split; [ | split].
  - eexists. split; [reflexivity | ]. rewrite !filter_In.
    split; [now split | ].
    destruct m as [ | p | p]; [contradiction | | ]; simpl in Hs;
      apply Z.leb_le in Hs;
      (destruct n as [ | q | q]; simpl; [reflexivity | | ];
       apply Z.leb_le; lia).
  - eexists. split; [reflexivity | ]. rewrite filter_In. now split.
  - exact Hin.
Qed.

Lemma larger_size_filter_lists_fewer_witness :
  let lead :=
    LeadModel.mk 1 "Ada" "Acme" "Finance" 600 "Referral" 0 "High" None in
  100 <= 500 /\ 500 <> 0 /\ sqlite_int 100 = true
  /\ Api.select_leads (Some "fin") (Some 500) [lead] = Ret [lead]
  /\ In lead [lead]
  /\ exists rows_n,
       Api.select_leads (Some "fin") (Some 100) [lead] = Ret rows_n
       /\ In lead rows_n.
Proof.
  cbv zeta.
  match goal with
  | |- ?A /\ ?B /\ ?C /\ ?D /\ ?E /\ _ =>
      assert (Ha : A) by lia; assert (Hb : B) by lia;
      assert (Hc : C) by reflexivity; assert (Hd : D) by reflexivity;
      assert (He : E) by (now left)
  end.
  split; [exact Ha | ]. split; [exact Hb | ]. split; [exact Hc | ].
  split; [exact Hd | ]. split; [exact He | ].
  exact (proj1 (larger_size_filter_lists_fewer _ _ _ _ _ _ Ha Hb Hc Hd He)).
Defined.

Lemma lower_length (s : list ascii) : List.length (Sql.lower s) = List.length s.
Proof. apply length_map. Qed.

Lemma list_ascii_empty (s : string) :
  list_ascii_of_string s = [] <-> s = ""%string.
Proof. destruct s; simpl; split; congruence. Qed.

(** X7: the listing does not depend on the letter case of the industry
    filter (ASCII letters), whatever characters the filter contains. *)
Theorem industry_filter_ignores_case :
  forall (i i' : string) (size : option Z) (table : list LeadModel.row),
    Sql.lower (list_ascii_of_string i) = Sql.lower (list_ascii_of_string i') ->
    Api.select_leads (Some i) size table
    = Api.select_leads (Some i') size table.
Proof.
  intros i i' size table Hlow.
  rewrite (select_then_size (Some i)), (select_then_size (Some i')).
  f_equal. unfold Api.select_leads.
  assert (Hempty : (i =? "")%string = (i' =? "")%string).
  { apply eq_true_iff_eq. rewrite !String.eqb_eq, <- !list_ascii_empty.
    rewrite <- !length_zero_iff_nil.
    rewrite <- (lower_length (list_ascii_of_string i)), Hlow, lower_length.
    reflexivity. }
  cbv zeta.
  change (truthy (JStr i)) with (negb (i =? "")%string).
  change (truthy (JStr i')) with (negb (i' =? "")%string).
  rewrite Hempty. destruct (i' =? "")%string; cbn [negb]; [reflexivity | ].
  f_equal. apply filter_ext. intros lead. unfold Sql.ilike.
  now rewrite !lower_pattern, Hlow.
Qed.

Lemma industry_filter_ignores_case_witness :
  let lead :=
    LeadModel.mk 1 "Ada" "Acme" "Technology" 600 "Referral" 0 "High" None in
  Sql.lower (list_ascii_of_string "TECH")
  = Sql.lower (list_ascii_of_string "tech")
  /\ Api.select_leads (Some "TECH") None [lead] = Ret [lead].
Proof.
  cbv zeta.
  match goal with |- ?A /\ _ => assert (Ha : A) by reflexivity end.
  split; [exact Ha | ].
  rewrite (industry_filter_ignores_case "TECH" "tech" None _ Ha).
  reflexivity.
Defined.





(** ** The event table under sequences of requests *)

Lemma largest_upper (id : Z) (rest : list Z) :
  Forall (fun x => x <= fold_right Z.max id rest) (id :: rest).
Proof.
  induction rest as [ | y rest IH]; simpl.
  - repeat constructor. lia.
  - inversion IH as [ | ? ? Hid Hrest]; subst.
    constructor; [lia | ]. constructor; [lia | ].
    eapply Forall_impl; [ | exact Hrest]. simpl. intros z Hz. lia.
Qed.

Lemma largest_below (b id : Z) (rest : list Z) :
  Forall (fun x => x <= b) (id :: rest) -> fold_right Z.max id rest <= b.
Proof.
  intros H. inversion H as [ | ? ? Hid Hrest]; subst. clear H.
  induction Hrest; simpl; lia.
Qed.

(** With room for [budget] more rows below the largest rowid, the next id
    is above every stored id and leaves room for [budget - 1] more. *)
Lemma next_id_above (pick_rowid : list Z -> Z) (ids : list Z) (budget : Z) :
  0 < budget -> budget <= max_rowid ->
  Forall (fun x => x + budget <= max_rowid) ids ->
  Forall (fun x => x < next_id pick_rowid ids) ids
  /\ next_id pick_rowid ids + (budget - 1) <= max_rowid.
Proof.
  intros Hpos Hcap Hall. destruct ids as [ | id rest].
  - split; [constructor | unfold next_id; lia].
  - unfold next_id.
    assert (Hle : fold_right Z.max id rest <= max_rowid - budget).
    { apply largest_below. eapply Forall_impl; [ | exact Hall].
      cbv beta. intros x Hx. lia. }
    destruct (Z.eqb_spec (fold_right Z.max id rest) max_rowid) as [He | _];
      [lia | ].
    cbv zeta. split; [ | lia].
    eapply Forall_impl; [ | apply largest_upper]. simpl. intros x Hx. lia.
Qed.

Lemma handle_appends (fromisoformat : string -> option datetime)
    (isoformat : datetime -> string) (response_data : json -> option json)
    (pick_rowid : list Z -> Z)
    (req : Session.request) (now : datetime) (db : Db) :
  let db' :=
    Session.handle fromisoformat isoformat response_data pick_rowid req now
      db in
  leads db' = leads db
  /\ exists event,
       EventModel.id event
       = next_id pick_rowid (map EventModel.id (events db))
       /\ events db'
          = events db
            ++ (if Session.stores_event (leads db) req then [event] else []).
Proof.
  destruct req as [industry size | event_data];
    cbn [Session.handle Session.stores_event].
  - unfold Api.get_leads, add_event.
    destruct (Api.select_leads industry size (leads db)) as [rows | e].
    + destruct (Api.response_leads isoformat rows);
        (split; [reflexivity | ]);
        exists (EventModel.mk
                  (next_id pick_rowid (map EventModel.id (events db)))
                  "filter" (Api.filter_event_data industry size) now);
        split; reflexivity.
    + split; [reflexivity | ].
      exists (EventModel.mk
                (next_id pick_rowid (map EventModel.id (events db)))
                "filter" JNull now).
      split; [reflexivity | ]. cbn [fst]. now rewrite app_nil_r.
  - unfold Api.post_event, add_event.
    destruct (response_data _);
      (split; [reflexivity | ]);
      exists (EventModel.mk
                (next_id pick_rowid (map EventModel.id (events db)))
                (ed_action event_data) (ed_data event_data)
                (Api.event_timestamp fromisoformat (ed_timestamp event_data)
                   now));
      split; reflexivity.
Qed.


Lemma increasing_snoc (ids : list Z) (x : Z) :
  Order.increasing ids -> Forall (fun y => y < x) ids ->
  Order.increasing (ids ++ [x]).
Proof.
  unfold Order.increasing.
  induction 1 as [ | y ids Hs IH Hall]; intros Hlt; simpl.
  - repeat constructor.
  - inversion Hlt as [ | ? ? Hyx Hrest]; subst.
    constructor; [now apply IH | ].
    apply Forall_app. split; [exact Hall | now constructor].
Qed.

Lemma increasing_NoDup (ids : list Z) : Order.increasing ids -> NoDup ids.
Proof.
  induction 1 as [ | y ids Hs IH Hall]; constructor; [ | exact IH].
  intros Hin. rewrite Forall_forall in Hall. specialize (Hall y Hin). lia.
Qed.

(** X10: while the rowids are not exhausted, event ids are assigned in
    increasing order: when the stored ids are strictly increasing and every
    one of them leaves room below the largest rowid, 2^63 - 1, for as many
    events as there are requests, the ids are still strictly increasing
    after the requests, so no two events share an id. *)
Theorem event_ids_stay_increasing :
  forall (fromisoformat : string -> option datetime)
         (isoformat : datetime -> string)
         (response_data : json -> option json)
         (pick_rowid : list Z -> Z)
         (calls : list (Session.request * datetime)) (db : Db),
    Order.increasing (map EventModel.id (events db)) ->
    Z.of_nat (List.length calls) <= max_rowid ->
    Forall (fun id => id + Z.of_nat (List.length calls) <= max_rowid)
      (map EventModel.id (events db)) ->
    let db' :=
      Session.serve fromisoformat isoformat response_data pick_rowid calls
        db in
    Order.increasing (map EventModel.id (events db'))
    /\ NoDup (map EventModel.id (events db')).
Proof.
  intros fromisoformat isoformat response_data pick_rowid calls.
  assert (Hinc : forall db,
             Order.increasing (map EventModel.id (events db)) ->
             Z.of_nat (List.length calls) <= max_rowid ->
             Forall (fun id => id + Z.of_nat (List.length calls) <= max_rowid)
               (map EventModel.id (events db)) ->
             Order.increasing
               (map EventModel.id
                  (events (Session.serve fromisoformat isoformat
                             response_data pick_rowid calls db)))).
  { induction calls as [ | [req now] calls IH]; intros db Hdb Hcap Hall;
      cbn [Session.serve].
    - exact Hdb.
    - destruct (handle_appends fromisoformat isoformat response_data
                  pick_rowid req now db) as [_ [event [Hid Hevents]]].
      cbn [List.length] in Hcap, Hall.
      assert (Hnext :
                Forall (fun x => x < EventModel.id event)
                  (map EventModel.id (events db))
                /\ EventModel.id event + Z.of_nat (List.length calls)
                   <= max_rowid).
      { rewrite Hid.
        destruct (next_id_above pick_rowid (map EventModel.id (events db))
                    (Z.of_nat (S (List.length calls))))
          as [Habove Hroom]; [lia | exact Hcap | exact Hall | ].
        split; [exact Habove | lia]. }
      destruct Hnext as [Habove Hroom].
      assert (Hall' :
                Forall (fun id => id + Z.of_nat (List.length calls)
                                  <= max_rowid)
                  (map EventModel.id (events db))).
      { eapply Forall_impl; [ | exact Hall]. cbv beta. intros x Hx. lia. }
      apply IH; [ | lia | ]; rewrite Hevents;
        destruct (Session.stores_event (leads db) req);
        rewrite ?app_nil_r, ?map_app; try assumption.
      + now apply increasing_snoc.
      + apply Forall_app. split; [exact Hall' | ].
        constructor; [exact Hroom | constructor]. }
  intros db Hdb Hcap Hall db'. split; [now apply Hinc | ].
  apply increasing_NoDup. now apply Hinc.
Qed.

Lemma event_ids_stay_increasing_witness :
  let calls :=
    [(Session.GetLeads (Some "tech") None, 5);
     (Session.PostEvent (mkEventData "toggle_view" JNull None), 6)] in
  let db := mkDb [] [EventModel.mk (-3) "filter" JNull 1] in
  Order.increasing (map EventModel.id (events db))
  /\ Z.of_nat (List.length calls) <= max_rowid
  /\ Forall (fun id => id + Z.of_nat (List.length calls) <= max_rowid)
       (map EventModel.id (events db))
  /\ map EventModel.id
       (events (Session.serve (fun _ => None) (fun _ => "") Some
                  (fun _ => 0) calls db))
     = [-3; -2; -1]
  /\ NoDup
       (map EventModel.id
          (events (Session.serve (fun _ => None) (fun _ => "") Some
                     (fun _ => 0) calls db))).
Proof.
  cbv zeta.
  match goal with
  | |- ?A /\ ?B /\ ?C /\ _ =>
      assert (Ha : A) by (repeat constructor);
      assert (Hb : B) by (apply Z.leb_le; reflexivity);
      assert (Hc : C)
        by (constructor; [apply Z.leb_le; reflexivity | constructor])
  end.
  split; [exact Ha | ]. split; [exact Hb | ]. split; [exact Hc | ].
  split; [reflexivity | ].
  exact (proj2 (event_ids_stay_increasing (fun _ => None) (fun _ => "") Some
                  (fun _ => 0) _ _ Ha Hb Hc)).
Defined.

(** ** Overall statistics *)

Lemma somes_length {A : Type} (l : list (option A)) :
  (List.length (Reports.somes l) <= List.length l)%nat.
Proof.
  induction l as [ | [a | ] l IH]; simpl; lia.
Qed.

Lemma nodup_length (l : list string) :
  (List.length (nodup string_dec l) <= List.length l)%nat.
Proof.
  induction l as [ | x l IH]; simpl; [lia | ].
  destruct (in_dec string_dec x l); simpl; lia.
Qed.

(** X11: the overall statistics never divide by zero: the average is
    computed exactly when some day has activity and is then at least 1;
    the number of active days is between 0 and the number of events, and
    an empty event table gives 0 events, 0 days and no average. *)
Theorem overall_statistics_bounds :
  forall (date_of : datetime -> option string) (events : list EventModel.row),
    let total := fst (fst (Reports.overall_statistics date_of events)) in
    let days := snd (fst (Reports.overall_statistics date_of events)) in
    let average := snd (Reports.overall_statistics date_of events) in
    total = Z.of_nat (List.length events)
    /\ 0 <= days <= total
    /\ (average = None <-> days = 0)
    /\ (forall a, average = Some a -> (1 <= a)%Q)
    /\ (events = [] -> total = 0 /\ days = 0 /\ average = None).
Proof.
  intros date_of events total days average.
  subst total days average. unfold Reports.overall_statistics. simpl.
  assert (Hdays : 0 <= Reports.unique_days date_of events
                  <= Z.of_nat (List.length events)).
  { unfold Reports.unique_days. split; [lia | ].
    apply Nat2Z.inj_le.
    eapply Nat.le_trans; [apply nodup_length | ].
    eapply Nat.le_trans; [apply somes_length | ].
    now rewrite length_map. }
  split; [reflexivity | ]. split; [exact Hdays | ].
  destruct (Z.gtb_spec (Reports.unique_days date_of events) 0) as [Hpos | Hz].
  - split; [split; [discriminate | lia] | ]. split.
    + intros a Ha. injection Ha as <-.
      apply Qle_shift_div_l.
      * change 0%Q with (inject_Z 0). rewrite <- Zlt_Qlt. lia.
      * rewrite Qmult_1_l, <- Zle_Qle. lia.
    + intros ->. unfold Reports.unique_days in Hpos. simpl in Hpos. lia.
  - split; [split; [lia | reflexivity] | ]. split; [discriminate | ].
    intros ->. repeat split.
Qed.

(** ** Company size analysis *)

Lemma occurrences_map_filter {A : Type} (f : A -> string) (key : string)
    (l : list A) :
  Spec.occurrences key (map f l)
  = Z.of_nat (List.length (filter (fun a => (f a =? key)%string) l)).
Proof.
  unfold Spec.occurrences. f_equal.
  induction l as [ | a l IH]; simpl; [reflexivity | ].
  rewrite (String.eqb_sym key (f a)).
  destruct (f a =? key)%string; simpl; now rewrite IH.
Qed.

Lemma band_count (band : string) (leads : list LeadModel.row) :
  Spec.occurrences band
    (map (fun lead => Reports.size_range (LeadModel.size lead)) leads)
  = Z.of_nat (List.length (Reports.band_sizes band leads)).
Proof.
  rewrite occurrences_map_filter. unfold Reports.band_sizes. f_equal.
  induction leads as [ | lead leads IH]; simpl; [reflexivity | ].
  destruct (_ =? band)%string; simpl; now rewrite IH.
Qed.

Lemma sum_sizes_lower (lo : Z) (sizes : list Z) :
  Forall (fun n => lo <= n) sizes ->
  lo * Z.of_nat (List.length sizes) <= Reports.sum_sizes sizes.
Proof.
  induction 1 as [ | n sizes Hn Hall IH]; [simpl; lia | ].
  change (Reports.sum_sizes (n :: sizes)) with (n + Reports.sum_sizes sizes).
  simpl List.length. rewrite Nat2Z.inj_succ. nia.
Qed.

Lemma sum_sizes_upper (hi : Z) (sizes : list Z) :
  Forall (fun n => n < hi) sizes -> sizes <> [] ->
  Reports.sum_sizes sizes < hi * Z.of_nat (List.length sizes).
Proof.
  induction 1 as [ | n sizes Hn Hall IH]; [congruence | ]. intros _.
  change (Reports.sum_sizes (n :: sizes)) with (n + Reports.sum_sizes sizes).
  simpl List.length. rewrite Nat2Z.inj_succ.
  destruct sizes as [ | m sizes]; [simpl; lia | ].
  assert (Reports.sum_sizes (m :: sizes)
          < hi * Z.of_nat (List.length (m :: sizes)))
    by (apply IH; discriminate).
  nia.
Qed.

Lemma size_range_cases (n : Z) :
  (Reports.size_range n = "Small (1-49)"%string /\ n < 50)
  \/ (Reports.size_range n = "Medium (50-199)"%string /\ 50 <= n < 200)
  \/ (Reports.size_range n = "Large (200-499)"%string /\ 200 <= n < 500)
  \/ (Reports.size_range n = "Enterprise (500+)"%string /\ 500 <= n).
Proof.
  unfold Reports.size_range.
  destruct (Z.ltb_spec n 50); [left; split; [reflexivity | lia] | ].
  destruct (Z.ltb_spec n 200);
    [right; left; split; [reflexivity | lia] | ].
  destruct (Z.ltb_spec n 500);
    [right; right; left; split; [reflexivity | lia] | ].
  right; right; right. split; [reflexivity | lia].
Qed.

Lemma band_sizes_in_band (band : string) (leads : list LeadModel.row) :
  Forall (fun n => Reports.size_range n = band) (Reports.band_sizes band leads).
Proof.
  apply Forall_forall. intros n Hn. unfold Reports.band_sizes in Hn.
  apply filter_In in Hn. destruct Hn as [_ Hn]. now apply String.eqb_eq.
Qed.

Lemma ratio_bounds (lo hi total count : Z) :
  0 < count ->
  (lo * count <= total ->
   (inject_Z lo <= inject_Z total / inject_Z count)%Q)
  /\ (total < hi * count ->
      (inject_Z total / inject_Z count < inject_Z hi)%Q).
Proof.
  intros Hc.
  assert (Hq : (0 < inject_Z count)%Q)
    by (change 0%Q with (inject_Z 0); now rewrite <- Zlt_Qlt).
  split; intros H.
  - apply Qle_shift_div_l; [exact Hq | ].
    now rewrite <- inject_Z_mult, <- Zle_Qle.
  - apply Qlt_shift_div_r; [exact Hq | ].
    now rewrite <- inject_Z_mult, <- Zlt_Qlt.
Qed.

(** X12: in the company size analysis every row stands for a non-empty
    band, its count is the number of leads whose size falls in the band,
    and its average size lies within the bounds of the band: below 50 for
    Small, in [50, 200) for Medium, in [200, 500) for Large and at least
    500 for Enterprise. *)
Theorem size_band_average_within_band :
  forall (leads : list LeadModel.row) (rows : list (string * Z * Q)),
    Reports.size_ranges leads rows ->
    forall band count average,
      In (band, count, average) rows ->
      1 <= count
      /\ count = Z.of_nat (List.length (Reports.band_sizes band leads))
      /\ ((band = "Small (1-49)"%string /\ (average < 50)%Q)
          \/ (band = "Medium (50-199)"%string
              /\ (50 <= average)%Q /\ (average < 200)%Q)
          \/ (band = "Large (200-499)"%string
              /\ (200 <= average)%Q /\ (average < 500)%Q)
          \/ (band = "Enterprise (500+)"%string /\ (500 <= average)%Q)).
Proof.
  intros leads rows Hperm band count average Hin.
  unfold Reports.size_ranges in Hperm.
  apply (Permutation_in _ (Permutation_sym Hperm)) in Hin.
  unfold Reports.size_groups in Hin. apply in_map_iff in Hin.
  destruct Hin as [[b c] [Heq Hin]]. simpl in Heq.
  injection Heq as -> -> <-.
  destruct (group_count_facts
              (map (fun lead => Reports.size_range (LeadModel.size lead))
                 leads)) as [Hnd [Hpos [Hcnt _]]].
  assert (Hc : 0 < count)
    by (rewrite Forall_forall in Hpos; exact (Hpos _ Hin)).
  assert (Hlen : count
                 = Z.of_nat (List.length (Reports.band_sizes band leads))).
  { rewrite <- band_count, <- Hcnt. symmetry. now apply In_count_in. }
  split; [lia | ]. split; [exact Hlen | ].
  pose proof (band_sizes_in_band band leads) as Hband.
  destruct (Reports.band_sizes band leads) as [ | n sizes] eqn:Hsizes;
    [simpl in Hlen; lia | ].
  assert (Hne : n :: sizes <> []) by discriminate.
  assert (Hn : Reports.size_range n = band)
    by (inversion Hband; assumption).
  assert (Hlo : forall lo,
             (forall m, Reports.size_range m = band -> lo <= m) ->
             (inject_Z lo
              <= inject_Z (Reports.sum_sizes (n :: sizes)) / inject_Z count)%Q).
  { intros lo Hall. apply (ratio_bounds lo 0 _ _ Hc). rewrite Hlen.
    apply sum_sizes_lower. eapply Forall_impl; [ | exact Hband].
    exact Hall. }
  assert (Hhi : forall hi,
             (forall m, Reports.size_range m = band -> m < hi) ->
             (inject_Z (Reports.sum_sizes (n :: sizes)) / inject_Z count
              < inject_Z hi)%Q).
  { intros hi Hall. apply (ratio_bounds 0 hi _ _ Hc). rewrite Hlen.
    apply sum_sizes_upper; [ | exact Hne].
    eapply Forall_impl; [ | exact Hband]. exact Hall. }
  destruct (size_range_cases n) as [[Hb Hr] | [[Hb Hr] | [[Hb Hr] | [Hb Hr]]]];
    rewrite Hn in Hb; clear Hn; subst band.
  - left. split; [reflexivity | ].
    apply (Hhi 50). intros m Hm.
    destruct (size_range_cases m) as [[_ ?] | [[E _] | [[E _] | [E _]]]];
      try (rewrite Hm in E; discriminate E); lia.
  - right; left. split; [reflexivity | ]. split.
    + apply (Hlo 50). intros m Hm.
      destruct (size_range_cases m) as [[E _] | [[_ ?] | [[E _] | [E _]]]];
        try (rewrite Hm in E; discriminate E); lia.
    + apply (Hhi 200). intros m Hm.
      destruct (size_range_cases m) as [[E _] | [[_ ?] | [[E _] | [E _]]]];
        try (rewrite Hm in E; discriminate E); lia.
  - right; right; left. split; [reflexivity | ]. split.
    + apply (Hlo 200). intros m Hm.
      destruct (size_range_cases m) as [[E _] | [[E _] | [[_ ?] | [E _]]]];
        try (rewrite Hm in E; discriminate E); lia.
    + apply (Hhi 500). intros m Hm.
      destruct (size_range_cases m) as [[E _] | [[E _] | [[_ ?] | [E _]]]];
        try (rewrite Hm in E; discriminate E); lia.
  - right; right; right. split; [reflexivity | ].
    apply (Hlo 500). intros m Hm.
    destruct (size_range_cases m) as [[E _] | [[E _] | [[E _] | [_ ?]]]];
      try (rewrite Hm in E; discriminate E); lia.
Qed.

Lemma size_band_average_within_band_witness :
  let lead := fun id size =>
    LeadModel.mk id "Ada" "Acme" "Finance" size "PPC" 0 "Low" None in
  let leads := [lead 1 60; lead 2 700; lead 3 150] in
  let rows :=
    [("Enterprise (500+)"%string, 1, (inject_Z 700 / inject_Z 1)%Q);
     ("Medium (50-199)"%string, 2, (inject_Z 210 / inject_Z 2)%Q)] in
  Reports.size_ranges leads rows
  /\ In ("Medium (50-199)"%string, 2, (inject_Z 210 / inject_Z 2)%Q) rows
  /\ 2 = Z.of_nat (List.length (Reports.band_sizes "Medium (50-199)" leads)).
Proof.
  cbv zeta.
  match goal with
  | |- ?A /\ ?B /\ _ =>
      assert (Ha : A) by apply perm_swap;
      assert (Hb : B) by (right; now left)
  end.
  split; [exact Ha | ]. split; [exact Hb | ].
  exact (proj1 (proj2 (size_band_average_within_band _ _ Ha _ _ _ Hb))).
Defined.

(** ** Filter usage patterns and top industries *)

Section CountingFacts.

Import Counting.

Lemma key_eqb_key_of (a b : json) :
  hashable a = true -> hashable b = true ->
  key_eqb a b = true <-> key_of a = key_of b.
Proof.
  destruct a as [ | [ | ] | n | s | items | fields];
    destruct b as [ | [ | ] | m | t | items' | fields'];
    cbn [key_eqb key_of hashable Bool.eqb];
    intros Ha Hb; try discriminate; split; intros H;
    try reflexivity; try discriminate;
    try (apply Z.eqb_eq in H; now subst);
    try (apply String.eqb_eq in H; now subst);
    try (injection H as H; subst; solve [apply Z.eqb_refl
                                        | apply String.eqb_refl]).
Qed.

Lemma dict_incr_at_keys (key : json) (d : list (json * Z)) (x : json) :
  In x (map key_of (map fst (Analytics.dict_incr_at key d))) ->
  x = key_of key \/ In x (map key_of (map fst d)).
Proof.
  induction d as [ | [k n] d IH]; simpl.
  - intros [H | []]. now left.
  - destruct (key_eqb k key); simpl.
    + intros H. now right.
    + intros [H | H]; [now right; left | ].
      destruct (IH H) as [H' | H']; [now left | now right; right].
Qed.

Lemma dict_incr_at_ok (key : json) (d : list (json * Z)) :
  hashable key = true -> counts_ok d ->
  counts_ok (Analytics.dict_incr_at key d)
  /\ count_total (Analytics.dict_incr_at key d) = count_total d + 1.
Proof.
  intros Hkey. unfold counts_ok.
  induction d as [ | [k n] d IH]; simpl; intros [Hall Hnd].
  - split; [ | reflexivity]. split.
    + constructor; [simpl; split; [exact Hkey | lia] | constructor].
    + constructor; [intros [] | constructor].
  - inversion Hall as [ | ? ? [Hk Hn] Hall']; subst. simpl in Hk, Hn.
    inversion Hnd as [ | ? ? Hnotin Hnd']; subst.
    destruct (key_eqb k key) eqn:Heq; simpl.
    + split; [ | lia]. split.
      * constructor; [simpl; split; [exact Hk | lia] | exact Hall'].
      * now constructor.
    + destruct (IH (conj Hall' Hnd')) as [[Hall'' Hnd''] Htot].
      split; [ | lia]. split.
      * constructor; [simpl; now split | exact Hall''].
      * constructor; [ | exact Hnd''].
        intros Hin. apply dict_incr_at_keys in Hin.
        destruct Hin as [Hin | Hin]; [ | contradiction].
        apply (key_eqb_key_of k key Hk Hkey) in Hin. congruence.
Qed.

Lemma dict_incr_ok (key : json) (d d' : list (json * Z)) :
  Analytics.dict_incr key d = Ret d' -> counts_ok d ->
  counts_ok d' /\ count_total d' = count_total d + 1.
Proof.
  unfold Analytics.dict_incr. intros H Hd.
  destruct (hashable key) eqn:Hkey; [ | discriminate H].
  injection H as <-. now apply dict_incr_at_ok.
Qed.

Lemma carries_flag (key : string) (event : EventModel.row) (b : bool) :
  truthy (EventModel.data event) = true ->
  contains key (EventModel.data event) = Ret b ->
  carries key event = b.
Proof.
  intros Ht Hc. unfold carries. rewrite Ht, Hc. now destruct b.
Qed.

Lemma filter_step_counts (event : EventModel.row)
    (d d' : list (json * Z)) (s s' : list json) :
  Analytics.filter_step event (d, s) = Ret (d', s') ->
  counts_ok d ->
  counts_ok d'
  /\ count_total d'
     = count_total d + (if carries "industry" event then 1 else 0)
  /\ Z.of_nat (List.length s')
     = Z.of_nat (List.length s) + (if carries "size" event then 1 else 0).
Proof.
  unfold Analytics.filter_step. intros H Hd.
  destruct (truthy (EventModel.data event)) eqn:Ht.
  - destruct (contains "industry" (EventModel.data event)) as [bi | e] eqn:Hi;
      [ | discriminate H].
    rewrite (carries_flag _ _ _ Ht Hi).
    simpl in H.
    destruct (contains "size" (EventModel.data event)) as [bs | e] eqn:Hs.
    + rewrite (carries_flag _ _ _ Ht Hs).
      destruct bi.
      * destruct (subscript (EventModel.data event) "industry") as [v | e];
          [ | discriminate H]. simpl in H.
        destruct (Analytics.dict_incr v d) as [d1 | e] eqn:Hincr;
          [ | discriminate H]. simpl in H.
        destruct (dict_incr_ok _ _ _ Hincr Hd) as [Hok Htot].
        destruct bs.
        -- destruct (subscript (EventModel.data event) "size") as [w | e];
             [ | discriminate H].
           simpl in H. injection H as <- <-.
           rewrite length_app. simpl List.length.
           split; [assumption | split; cbv iota; lia].
        -- simpl in H. injection H as <- <-. split; [assumption | split; cbv iota; lia].
      * simpl in H. destruct bs.
        -- destruct (subscript (EventModel.data event) "size") as [w | e];
             [ | discriminate H].
           simpl in H. injection H as <- <-.
           rewrite length_app. simpl List.length.
           split; [assumption | split; cbv iota; lia].
        -- simpl in H. injection H as <- <-. split; [assumption | split; cbv iota; lia].
    + destruct bi.
      * destruct (subscript (EventModel.data event) "industry") as [v | e'];
          [ | discriminate H]. simpl in H.
        destruct (Analytics.dict_incr v d); simpl in H; discriminate H.
      * simpl in H. discriminate H.
  - injection H as <- <-. unfold carries. rewrite Ht. simpl.
    split; [assumption | split; cbv iota; lia].
Qed.

Lemma filter_loop_counts (events : list EventModel.row) :
  forall d s d' s',
    Analytics.filter_loop events (d, s) = Ret (d', s') ->
    counts_ok d ->
    counts_ok d'
    /\ count_total d'
       = count_total d
         + Z.of_nat (List.length (filter (carries "industry") events))
    /\ Z.of_nat (List.length s')
       = Z.of_nat (List.length s)
         + Z.of_nat (List.length (filter (carries "size") events)).
Proof.
  induction events as [ | event events IH]; intros d s d' s' H Hd.
  - simpl in H. injection H as <- <-. simpl.
    split; [assumption | split; lia].
  - change (Analytics.filter_loop (event :: events) (d, s))
      with (acc' <- Analytics.filter_step event (d, s) ;;
            Analytics.filter_loop events acc') in H.
    destruct (Analytics.filter_step event (d, s)) as [[d1 s1] | e] eqn:Hstep;
      [ | discriminate H].
    cbn [bind] in H.
    destruct (filter_step_counts _ _ _ _ _ Hstep Hd) as [Hok [Htot Hlen]].
    destruct (IH _ _ _ _ H Hok) as [Hok' [Htot' Hlen']].
    split; [exact Hok' | ]. simpl.
    destruct (carries "industry" event), (carries "size" event);
      simpl List.length; split; lia.
Qed.

Lemma insert_desc_perm (x : json * Z) (l : list (json * Z)) :
  Permutation (x :: l) (Analytics.insert_desc x l).
Proof.
  induction l as [ | y l IH]; simpl; [reflexivity | ].
  destruct (snd y >? snd x); [ | reflexivity].
  rewrite perm_swap. now constructor.
Qed.

Lemma sorted_desc_perm (items : list (json * Z)) :
  Permutation items (Analytics.sorted_desc items).
Proof.
  induction items as [ | x items IH]; simpl; [constructor | ].
  rewrite <- insert_desc_perm. now constructor.
Qed.

Lemma insert_desc_sorted (x : json * Z) (l : list (json * Z)) :
  StronglySorted item_ge l -> StronglySorted item_ge (Analytics.insert_desc x l).
Proof.
  induction 1 as [ | y l Hs IH Hall]; simpl.
  - repeat constructor.
  - destruct (Z.gtb_spec (snd y) (snd x)) as [Hgt | Hle].
    + constructor; [exact IH | ].
      eapply Permutation_Forall; [apply insert_desc_perm | ].
      constructor; [unfold item_ge; lia | exact Hall].
    + constructor; [now constructor | ].
      constructor; [unfold item_ge; lia | ].
      eapply Forall_impl; [ | exact Hall].
      unfold item_ge. intros z Hz. lia.
Qed.

Lemma sorted_desc_sorted (items : list (json * Z)) :
  StronglySorted item_ge (Analytics.sorted_desc items).
Proof.
  induction items as [ | x items IH]; simpl; [constructor | ].
  now apply insert_desc_sorted.
Qed.

(** Entries of equal count keep the order they had. *)
Lemma sorted_desc_stable (items : list (json * Z)) (c : Z) :
  filter (fun item => snd item =? c) (Analytics.sorted_desc items)
  = filter (fun item => snd item =? c) items.
Proof.
  induction items as [ | x items IH]; simpl; [reflexivity | ].
  rewrite <- IH. generalize (Analytics.sorted_desc items) as l.
  induction l as [ | y l IHl]; simpl; [reflexivity | ].
  destruct (Z.gtb_spec (snd y) (snd x)) as [Hgt | Hle]; simpl.
  - rewrite IHl.
    destruct (Z.eqb_spec (snd x) c) as [Hx | Hx];
      destruct (Z.eqb_spec (snd y) c) as [Hy | Hy]; try reflexivity.
    lia.
  - reflexivity.
Qed.

Lemma count_total_perm (l l' : list (json * Z)) :
  Permutation l l' -> count_total l = count_total l'.
Proof.
  induction 1; simpl; lia.
Qed.

Lemma counts_ok_perm (l l' : list (json * Z)) :
  Permutation l l' -> counts_ok l -> counts_ok l'.
Proof.
  intros Hperm [Hall Hnd]. split.
  - eapply Permutation_Forall; eassumption.
  - eapply Permutation_NoDup; [ | exact Hnd].
    now apply Permutation_map, Permutation_map.
Qed.

Lemma counts_ok_nil : counts_ok [].
Proof. split; constructor. Qed.

End CountingFacts.

(** X13: when the filter-usage report is produced, its industries are
    listed in descending order of count, each once and with a count of at
    least 1; the counts add up to the number of filter events that carry an
    industry, and the average size is missing exactly when no filter event
    carries a size. *)
Theorem filter_usage_report_counts :
  forall (events : list EventModel.row) (report : Analytics.FilterUsage),
    Analytics.filter_usage events = Ret report ->
    let filter_events := filter Analytics.is_filter events in
    let listed := Analytics.most_filtered report in
    StronglySorted Counting.item_ge listed
    /\ NoDup (map Counting.key_of (map fst listed))
    /\ Forall (fun item => 1 <= snd item) listed
    /\ Counting.count_total listed
       = Z.of_nat
           (List.length (filter (Counting.carries "industry") filter_events))
    /\ (Analytics.avg_size_filter report = None
        <-> filter (Counting.carries "size") filter_events = []).
Proof.
  intros events report H filter_events listed. subst listed.
  unfold Analytics.filter_usage in H. fold filter_events in H.
  destruct (Analytics.filter_loop filter_events ([], [])) as [[d s] | e]
    eqn:Hloop; [ | discriminate H].
  cbn [bind] in H.
  destruct (filter_loop_counts _ _ _ _ _ Hloop counts_ok_nil)
    as [Hok [Htot Hlen]].
  simpl in Htot, Hlen.
  assert (Hsorted : Counting.counts_ok (Analytics.sorted_desc d))
    by (eapply counts_ok_perm; [apply sorted_desc_perm | exact Hok]).
  assert (Hlisted : Analytics.most_filtered report = Analytics.sorted_desc d).
  { destruct s; [now injection H as <- | ].
    destruct (sum (j :: s)); [ | discriminate H]. cbn [bind] in H.
    destruct (true_div _ _); [ | discriminate H]. now injection H as <-. }
  rewrite Hlisted. destruct Hsorted as [Hall Hnd].
  split; [apply sorted_desc_sorted | ]. split; [exact Hnd | ]. split.
  - eapply Forall_impl; [ | exact Hall]. simpl. tauto.
  - split.
    + rewrite <- (count_total_perm _ _ (sorted_desc_perm d)). exact Htot.
    + rewrite <- length_zero_iff_nil.
      destruct s as [ | v s].
      * injection H as <-. simpl in *. split; [lia | reflexivity].
      * destruct (sum (v :: s)); [ | discriminate H]. cbn [bind] in H.
        destruct (true_div _ _); [ | discriminate H]. injection H as <-.
        simpl in *. split; [discriminate | lia].
Qed.

Lemma filter_usage_report_counts_witness :
  let event := fun id industry =>
    EventModel.mk id "filter" (JObj [("industry", JStr industry)]) 0 in
  let events :=
    [event 1 "Finance"; event 2 "Healthcare"; event 3 "Healthcare"] in
  let report :=
    Analytics.mkFilterUsage [(JStr "Healthcare", 2); (JStr "Finance", 1)]
      None in
  Analytics.filter_usage events = Ret report
  /\ Counting.count_total (Analytics.most_filtered report) = 3.
Proof.
  cbv zeta.
  match goal with |- ?A /\ _ => assert (Ha : A) by reflexivity end.
  split; [exact Ha | ].
  exact (proj1 (proj2 (proj2 (proj2 (filter_usage_report_counts _ _ Ha))))).
Defined.






Lemma usage_step_ok (json_loads : string -> option json)
    (data : option string) (d d' : list (json * Z)) :
  Analytics.usage_step json_loads data d = Ret d' ->
  Counting.counts_ok d -> Counting.counts_ok d'.
Proof.
  unfold Analytics.usage_step. intros H Hd.
  destruct data as [text | ]; [ | now injection H as <-].
  destruct (truthy (JStr text)); [ | now injection H as <-].
  destruct (json_loads text) as [v | ]; [ | now injection H as <-].
  destruct (Analytics.first_key v Analytics.possible_keys) as [industry | ];
    [ | now injection H as <-].
  destruct (truthy industry); [ | now injection H as <-].
  now apply (dict_incr_ok _ _ _ H).
Qed.

Lemma usage_loop_ok (json_loads : string -> option json)
    (rows : list (option string)) :
  forall d d',
    Usage.usage_loop json_loads rows d = Ret d' ->
    Counting.counts_ok d -> Counting.counts_ok d'.
Proof.
  induction rows as [ | data rows IH]; intros d d' H Hd.
  - simpl in H. now injection H as <-.
  - simpl in H.
    destruct (Analytics.usage_step json_loads data d) as [d1 | e] eqn:Hstep;
      [ | discriminate H].
    cbn [bind] in H. eapply IH; [exact H | ].
    now apply (usage_step_ok _ _ _ _ Hstep).
Qed.

Lemma firstn_sorted (n : nat) (l : list (json * Z)) :
  StronglySorted Counting.item_ge l ->
  StronglySorted Counting.item_ge (firstn n l).
Proof.
  intros Hs. revert n. induction Hs as [ | x l Hs IH Hall]; intros n.
  - rewrite firstn_nil. constructor.
  - destruct n as [ | n]; simpl; constructor; [apply IH | ].
    rewrite <- (firstn_skipn n l) in Hall. now apply Forall_app in Hall.
Qed.

(** X15: the table of top industries, when the fallback loop produces it,
    has at most three rows, in descending order of count, each industry
    once and with a count of at least 1. *)
Theorem top_industries_shape :
  forall (json_loads : string -> option json) (rows : list (option string))
         (top : list (json * Z)),
    Usage.top_industries json_loads rows = Ret top ->
    (List.length top <= 3)%nat
    /\ StronglySorted Counting.item_ge top
    /\ Forall (fun item => 1 <= snd item) top
    /\ NoDup (map Counting.key_of (map fst top)).
Proof.
  intros json_loads rows top H. unfold Usage.top_industries in H.
  destruct (Usage.usage_loop json_loads rows []) as [d | e] eqn:Hloop;
    [ | discriminate H].
  cbn [bind] in H.
  assert (Htop : top = firstn 3 (Analytics.sorted_desc d))
    by (injection H as H; symmetry; exact H).
  clear H. subst top.
  assert (Hok : Counting.counts_ok (Analytics.sorted_desc d)).
  { eapply counts_ok_perm; [apply sorted_desc_perm | ].
    eapply usage_loop_ok; [exact Hloop | apply counts_ok_nil]. }
  destruct Hok as [Hall Hnd].
  rewrite <- (firstn_skipn 3 (Analytics.sorted_desc d)) in Hall, Hnd.
  apply Forall_app in Hall. destruct Hall as [Hall _].
  rewrite !map_app in Hnd. apply NoDup_app_remove_r in Hnd.
  split; [apply firstn_le_length | ].
  split; [apply firstn_sorted, sorted_desc_sorted | ].
  split; [ | exact Hnd].
  eapply Forall_impl; [ | exact Hall]. simpl. tauto.
Qed.

Lemma top_industries_shape_witness :
  let loads := fun text : string =>
    if (text =? "h")%string then
      Some (JObj [("industryFilter", JStr "Healthcare")])
    else if (text =? "f")%string then
      Some (JObj [("industryFilter", JStr "Finance")])
    else Some JNull in
  let rows := [Some "h"; Some "null"; None; Some "f"; Some "h"]%string in
  let top := [(JStr "Healthcare", 2); (JStr "Finance", 1)] in
  Usage.top_industries loads rows = Ret top /\ (List.length top <= 3)%nat.
Proof.
  cbv zeta.
  match goal with |- ?A /\ _ => assert (Ha : A) by reflexivity end.
  split; [exact Ha | ].
  exact (proj1 (top_industries_shape _ _ _ Ha)).
Defined.

Lemma usage_step_skips_unread (json_loads : string -> option json)
    (data : option string) (industry_counts : list (json * Z)) :
  Usage.read_row json_loads data = false ->
  Analytics.usage_step json_loads data industry_counts = Ret industry_counts.
Proof.
  unfold Usage.read_row, Analytics.usage_step. intros H.
  destruct data as [text | ]; [ | reflexivity].
  destruct (truthy (JStr text)); [ | reflexivity]. cbn [andb] in H.
  destruct (json_loads text) as [[ | b | n | t | items | fields] | ];
    try reflexivity.
  discriminate H.
Qed.

(** X16: the loop of lines 289-308 skips every row whose payload is NULL
    or empty, does not decode, or decodes to something that is not a dict:
    over any rows the table of top industries, or the exception raised, is
    the one that the other rows alone give. *)
Theorem top_industries_skips_unreadable :
  forall (json_loads : string -> option json) (rows : list (option string)),
    Usage.top_industries json_loads rows
    = Usage.top_industries json_loads
        (filter (Usage.read_row json_loads) rows).
Proof.
  intros json_loads rows. unfold Usage.top_industries. f_equal.
  generalize (@nil (json * Z)) as d.
  induction rows as [ | data rows IH]; intros d; [reflexivity | ].
  cbn [filter].
  destruct (Usage.read_row json_loads data) eqn:Hread.
  - cbn [Usage.usage_loop].
    destruct (Analytics.usage_step json_loads data d) as [d1 | e];
      cbn [bind]; [apply IH | reflexivity].
  - cbn [Usage.usage_loop].
    rewrite (usage_step_skips_unread _ _ _ Hread). cbn [bind]. apply IH.
Qed.

(** A run of the loop over rows of each skipped kind beside two rows that
    are read. *)
Lemma top_industries_skips_unreadable_witness :
  let loads := fun text : string =>
    if (text =? "5")%string then Some (JInt 5)
    else if (text =? "null")%string then Some JNull
    else if (text =? "[]")%string then Some (JArr [])
    else if (text =? "a")%string then
      Some (JObj [("industryFilter", JStr "Finance")])
    else None in
  let rows :=
    [Some "5"; Some "a"; None; Some "null"; Some ""; Some "[]"; Some "a"]
      %string in
  filter (Usage.read_row loads) rows = [Some "a"; Some "a"]%string
  /\ Usage.top_industries loads rows = Ret [(JStr "Finance", 2)].
Proof.
  cbv zeta. split; [reflexivity | ].
  rewrite top_industries_skips_unreadable. reflexivity.
Defined.

(** ** [load_sample_data] *)

Section IngestFacts.

Variable int_of_str : string -> option Z.
Variable fromisoformat : string -> option datetime.
Variable bind_text : json -> option (option string).
Variable LLM_AVAILABLE : bool.
Variable llm : nat -> Classifier.llm_outcome.
Variable clock : nat -> datetime.

Local Abbreviation row_lead :=
  (Ingest.row_lead int_of_str fromisoformat bind_text LLM_AVAILABLE llm clock).
Local Abbreviation rows_leads :=
  (Ingest.rows_leads int_of_str fromisoformat bind_text LLM_AVAILABLE llm
     clock).
Local Abbreviation load_sample_data :=
  (Ingest.load_sample_data int_of_str fromisoformat bind_text LLM_AVAILABLE
     llm clock).

Lemma insert_row_perm (lead : LeadModel.row) (table : list LeadModel.row) :
  Permutation (lead :: table) (Ingest.insert_row lead table).
Proof.
  induction table as [ | row table IH]; simpl; [reflexivity | ].
  destruct (LeadModel.id lead <=? LeadModel.id row); [reflexivity | ].
  rewrite perm_swap. now constructor.
Qed.

Lemma by_rowid_perm (rows : list LeadModel.row) :
  Permutation rows (Ingest.by_rowid rows).
Proof.
  induction rows as [ | lead rows IH]; simpl; [constructor | ].
  rewrite <- insert_row_perm. now constructor.
Qed.

Lemma distinct_NoDup (ids : list Z) :
  Ingest.distinct ids = true <-> NoDup ids.
Proof.
  induction ids as [ | id ids IH]; simpl.
  - split; [constructor | reflexivity].
  - rewrite andb_true_iff, negb_true_iff, IH. split.
    + intros [Hnot Hnd]. constructor; [ | exact Hnd].
      intros Hin. assert (existsb (Z.eqb id) ids = true); [ | congruence].
      apply existsb_exists. exists id. split; [exact Hin | apply Z.eqb_refl].
    + intros Hnd. inversion Hnd as [ | ? ? Hnotin Hnd']; subst.
      split; [ | exact Hnd'].
      destruct (existsb (Z.eqb id) ids) eqn:He; [ | reflexivity].
      apply existsb_exists in He. destruct He as [x [Hin Hx]].
      apply Z.eqb_eq in Hx. subst x. contradiction.
Qed.

(** What a row that was added says about the row of the file. *)
Lemma row_lead_fields (k : nat) (row : Ingest.CsvRow) (lead : LeadModel.row) :
  row_lead k row = Some lead ->
  Ingest.c_name row = Some (LeadModel.name lead)
  /\ Ingest.c_company row = Some (LeadModel.company lead)
  /\ Ingest.c_industry row = Some (LeadModel.industry lead)
  /\ Ingest.c_source row = Some (LeadModel.source lead)
  /\ (exists s, Ingest.c_size row = Some s
                /\ int_of_str s = Some (LeadModel.size lead))
  /\ (exists s, Ingest.c_id row = Some s
                /\ int_of_str s = Some (LeadModel.id lead))
  /\ (exists quality,
        subscript
          (Classifier.enhance_lead_with_llm LLM_AVAILABLE (llm k)
             (LeadModel.name lead) (LeadModel.company lead)
             (LeadModel.industry lead) (LeadModel.size lead)
             (LeadModel.source lead)) "quality" = Ret quality
        /\ exists stored,
             bind_text quality = Some stored
             /\ LeadModel.quality lead
                = match stored with Some q => q | None => "Medium"%string end)
  /\ (exists summary,
        subscript
          (Classifier.enhance_lead_with_llm LLM_AVAILABLE (llm k)
             (LeadModel.name lead) (LeadModel.company lead)
             (LeadModel.industry lead) (LeadModel.size lead)
             (LeadModel.source lead)) "summary" = Ret summary
        /\ bind_text summary = Some (LeadModel.summary lead)).
Proof.
  unfold Ingest.row_lead. intros H.
  destruct (Ingest.c_created_at row) as [created | ]; [ | discriminate H].
  destruct (Ingest.c_name row) as [name | ]; [ | discriminate H].
  destruct (Ingest.c_company row) as [company | ]; [ | discriminate H].
  destruct (Ingest.c_industry row) as [industry | ]; [ | discriminate H].
  destruct (Ingest.c_size row) as [size_str | ]; [ | discriminate H].
  destruct (Ingest.c_source row) as [source | ]; [ | discriminate H].
  destruct (Ingest.c_id row) as [id_str | ]; [ | discriminate H].
  destruct (int_of_str size_str) as [size | ] eqn:Hsize; [ | discriminate H].
  destruct (int_of_str id_str) as [id | ] eqn:Hid; [ | discriminate H].
  destruct (subscript _ "quality") as [quality | e] eqn:Hq;
    [ | discriminate H].
  destruct (subscript _ "summary") as [summary | e] eqn:Hs;
    [ | discriminate H].
  destruct (bind_text quality) as [stored | ] eqn:Hbq; [ | discriminate H].
  destruct (bind_text summary) as [s | ] eqn:Hbs; [ | discriminate H].
  destruct (sqlite_int id && sqlite_int size); [ | discriminate H].
  injection H as <-. simpl.
  repeat split; eauto.
Qed.

Lemma rows_leads_fields (rows : list Ingest.CsvRow) :
  forall k added,
    rows_leads k rows = Some added ->
    List.length added = List.length rows
    /\ map (fun lead => Some (LeadModel.name lead)) added
       = map Ingest.c_name rows
    /\ map (fun lead => Some (LeadModel.company lead)) added
       = map Ingest.c_company rows
    /\ map (fun lead => Some (LeadModel.industry lead)) added
       = map Ingest.c_industry rows
    /\ map (fun lead => Some (LeadModel.source lead)) added
       = map Ingest.c_source rows.
Proof.
  induction rows as [ | row rows IH]; intros k added H.
  - injection H as <-. repeat split.
  - cbn [Ingest.rows_leads] in H.
    destruct (row_lead k row) as [lead | ] eqn:Hrow; [ | discriminate H].
    destruct (rows_leads (S k) rows) as [leads | ] eqn:Hr;
      [ | discriminate H].
    injection H as <-.
    destruct (IH _ _ Hr) as [Hlen [Hn [Hc [Hi Hs]]]].
    destruct (row_lead_fields _ _ _ Hrow) as [Hn' [Hc' [Hi' [Hs' _]]]].
    simpl. rewrite Hlen, Hn, Hc, Hi, Hs, Hn', Hc', Hi', Hs'. repeat split.
Qed.

(** X17: startup loading is all or nothing and touches only the leads
    table: the events are unchanged, and either the leads table is unchanged
    or it was empty and now holds exactly one lead per row of the file, with
    distinct ids and the name, company, industry and source of the rows. *)
Theorem load_sample_data_all_or_nothing :
  forall (csv : option (list Ingest.CsvRow)) (db : Db),
    let db' := load_sample_data csv db in
    events db' = events db
    /\ (leads db' = leads db
        \/ exists rows added,
             csv = Some rows /\ leads db = []
             /\ Permutation added (leads db')
             /\ NoDup (map LeadModel.id (leads db'))
             /\ List.length added = List.length rows
             /\ map (fun lead => Some (LeadModel.name lead)) added
                = map Ingest.c_name rows
             /\ map (fun lead => Some (LeadModel.company lead)) added
                = map Ingest.c_company rows
             /\ map (fun lead => Some (LeadModel.industry lead)) added
                = map Ingest.c_industry rows
             /\ map (fun lead => Some (LeadModel.source lead)) added
                = map Ingest.c_source rows).
Proof.
  intros csv db db'. subst db'.
  unfold Ingest.load_sample_data.
  destruct (leads db) as [ | lead table] eqn:Hleads; [ | now split; [ | left]].
  destruct csv as [rows | ]; [ | rewrite Hleads; now split; [ | left]].
  destruct (rows_leads 0 rows) as [added | ] eqn:Hrows;
    [ | rewrite Hleads; now split; [ | left]].
  destruct (Ingest.distinct (map LeadModel.id added)) eqn:Hd;
    [ | rewrite Hleads; now split; [ | left]].
  simpl. split; [reflexivity | ]. right. exists rows, added.
  split; [reflexivity | ]. split; [reflexivity | ].
  split; [apply by_rowid_perm | ]. split.
  - apply distinct_NoDup in Hd.
    eapply Permutation_NoDup; [ | exact Hd].
    apply Permutation_map, by_rowid_perm.
  - now apply rows_leads_fields in Hrows.
Qed.

(** X18: startup loading never changes a database that already has a
    lead. So a second run, whatever the file, the LLM answers and the clock
    readings it meets, changes nothing once a first run has stored a lead;
    and a first run that stored none left the database as it was. *)
Theorem load_sample_data_idempotent :
  forall (int_of_str' : string -> option Z)
         (fromisoformat' : string -> option datetime)
         (bind_text' : json -> option (option string))
         (LLM_AVAILABLE' : bool)
         (llm' : nat -> Classifier.llm_outcome) (clock' : nat -> datetime)
         (csv csv' : option (list Ingest.CsvRow)) (db : Db),
    let db1 := load_sample_data csv db in
    (leads db <> [] -> db1 = db)
    /\ (leads db1 <> [] ->
        Ingest.load_sample_data int_of_str' fromisoformat' bind_text'
          LLM_AVAILABLE' llm' clock' csv' db1
        = db1)
    /\ (leads db1 = [] -> db1 = db).
Proof.
  intros int_of_str' fromisoformat' bind_text' LLM_AVAILABLE' llm' clock'
    csv csv' [table stored] db1.
  split; [ | split].
  - subst db1. unfold Ingest.load_sample_data. cbn [leads].
    destruct table as [ | lead table]; [intros H; now elim H | reflexivity].
  - unfold Ingest.load_sample_data at 1.
    destruct (leads db1); [intros H; now elim H | reflexivity].
  - subst db1. unfold Ingest.load_sample_data. cbn [leads events].
    destruct table as [ | lead table]; [ | reflexivity].
    destruct csv as [rows | ]; [ | reflexivity].
    destruct (rows_leads 0 rows) as [added | ]; [ | reflexivity].
    destruct (Ingest.distinct (map LeadModel.id added)); [ | reflexivity].
    cbn [leads]. now intros ->.
Qed.

End IngestFacts.

Lemma load_sample_data_idempotent_witness :
  let int_of_str := fun s : string =>
    if (s =? "1")%string then Some 1
    else if (s =? "600")%string then Some 600 else None in
  let bind_text := fun v : json =>
    match v with
    | JStr s => Some (Some s)
    | JNull => Some None
    | _ => None
    end in
  let row :=
    Ingest.mkCsvRow (Some "1") (Some "Ada") (Some "Acme") (Some "Finance")
      (Some "600") (Some "Referral") (Some "2024-01-01T00:00:00Z")%string in
  let failed :=
    Ingest.load_sample_data int_of_str (fun _ => None) bind_text true
      (fun _ => Classifier.LlmResult (JInt 5)) (fun _ => 9) (Some [row])
      (mkDb [] []) in
  let loaded :=
    Ingest.load_sample_data int_of_str (fun _ => None) bind_text true
      (fun _ => Classifier.LlmRaises) (fun _ => 10) (Some [row]) failed in
  (leads failed = [] /\ failed = mkDb [] [])
  /\ (leads loaded <> []
      /\ Ingest.load_sample_data int_of_str (fun _ => None) bind_text true
           (fun _ => Classifier.LlmResult (JInt 5)) (fun _ => 11) None loaded
         = loaded).
Proof.
  cbv zeta. split.
  - assert (H : leads
                  (Ingest.load_sample_data
                     (fun s : string =>
                        if (s =? "1")%string then Some 1
                        else if (s =? "600")%string then Some 600 else None)
                     (fun _ => None)
                     (fun v : json =>
                        match v with
                        | JStr s => Some (Some s)
                        | JNull => Some None
                        | _ => None
                        end)
                     true (fun _ => Classifier.LlmResult (JInt 5))
                     (fun _ => 9)
                     (Some
                        [Ingest.mkCsvRow (Some "1") (Some "Ada") (Some "Acme")
                           (Some "Finance") (Some "600") (Some "Referral")
                           (Some "2024-01-01T00:00:00Z")%string])
                     (mkDb [] []))
                = []) by reflexivity.
    split; [exact H | ].
    exact (proj2 (proj2 (load_sample_data_idempotent _ _ _ _ _ _
                           (fun _ => None) (fun _ => None) (fun _ => None)
                           false (fun _ => Classifier.LlmRaises) (fun _ => 0)
                           _ None (mkDb [] []))) H).
  - match goal with
    | |- ?A /\ _ => assert (H : A) by discriminate
    end.
    split; [exact H | ].
    exact (proj1 (proj2 (load_sample_data_idempotent _ _ _ _ _ _
                           _ (fun _ => None) _ true
                           (fun _ => Classifier.LlmResult (JInt 5))
                           (fun _ => 11) _ None _)) H).
Defined.





(** ** Two-column groups and the dicts built from them *)

Section BreakdownFacts.

Import Breakdown.

Lemma pair_eqb_spec (a b : string * string) : reflect (a = b) (pair_eqb a b).
Proof.
  destruct a as [a1 a2], b as [b1 b2]. unfold pair_eqb. simpl.
  destruct (String.eqb_spec a1 b1) as [-> | H1];
    destruct (String.eqb_spec a2 b2) as [-> | H2]; constructor; congruence.
Qed.

Lemma sum_where_app (p : string * string -> bool)
    (l l' : list (string * string * Z)) :
  sum_where p (l ++ l') = sum_where p l + sum_where p l'.
Proof.
  induction l as [ | row l IH]; simpl; [reflexivity | ]. rewrite IH. lia.
Qed.

Lemma sum_where_perm (p : string * string -> bool)
    (l l' : list (string * string * Z)) :
  Permutation l l' -> sum_where p l = sum_where p l'.
Proof.
  induction 1; simpl; lia.
Qed.

Lemma sum_where_none (p : string * string -> bool)
    (l : list (string * string * Z)) :
  (forall key, In key (map fst l) -> p key = false) -> sum_where p l = 0.
Proof.
  induction l as [ | [key n] l IH]; simpl; intros H; [reflexivity | ].
  rewrite (H key) by now left. rewrite IH; [reflexivity | ].
  intros k Hk. apply H. now right.
Qed.

Lemma sum_where_count_pair (p : string * string -> bool)
    (key : string * string) (groups : list (string * string * Z)) :
  sum_where p (count_pair key groups)
  = sum_where p groups + (if p key then 1 else 0).
Proof.
  induction groups as [ | [k n] groups IH]; simpl.
  - lia.
  - destruct (pair_eqb_spec k key) as [-> | Hne]; simpl.
    + destruct (p key); lia.
    + rewrite IH. lia.
Qed.

Lemma keys_count_pair (k key : string * string)
    (groups : list (string * string * Z)) :
  In k (map fst (count_pair key groups))
  <-> k = key \/ In k (map fst groups).
Proof.
  induction groups as [ | [k' n] groups IH]; simpl.
  - intuition.
  - destruct (pair_eqb_spec k' key) as [-> | Hne]; simpl.
    + intuition.
    + rewrite IH. intuition.
Qed.

Lemma count_pair_ok (key : string * string)
    (groups : list (string * string * Z)) :
  NoDup (map fst groups) /\ Forall (fun row => 0 < snd row) groups ->
  NoDup (map fst (count_pair key groups))
  /\ Forall (fun row => 0 < snd row) (count_pair key groups).
Proof.
  induction groups as [ | [k n] groups IH]; simpl; intros [Hnd Hpos].
  - split; [constructor; [intros [] | constructor] | ].
    constructor; [simpl; lia | constructor].
  - inversion Hnd as [ | ? ? Hnotin Hnd']; subst.
    inversion Hpos as [ | ? ? Hn Hpos']; subst. simpl in Hn.
    destruct (pair_eqb_spec k key) as [-> | Hne]; simpl.
    + split; [now constructor | ]. constructor; [simpl; lia | exact Hpos'].
    + destruct (IH (conj Hnd' Hpos')) as [Hnd'' Hpos''].
      split; [ | now constructor].
      constructor; [ | exact Hnd''].
      rewrite keys_count_pair. intros [-> | Hin]; [now apply Hne | ].
      now apply Hnotin.
Qed.

Lemma group_count2_facts (keys : list (string * string)) :
  NoDup (map fst (group_count2 keys))
  /\ Forall (fun row => 0 < snd row) (group_count2 keys)
  /\ (forall p, sum_where p (group_count2 keys)
                = Z.of_nat (List.length (filter p keys)))
  /\ (forall k, In k (map fst (group_count2 keys)) <-> In k keys).
Proof.
  unfold group_count2.
  assert (H : forall groups,
             NoDup (map fst groups) /\ Forall (fun row => 0 < snd row) groups ->
             let groups' :=
               fold_left (fun g key => count_pair key g) keys groups in
             (NoDup (map fst groups')
              /\ Forall (fun row => 0 < snd row) groups')
             /\ (forall p, sum_where p groups'
                           = sum_where p groups
                             + Z.of_nat (List.length (filter p keys)))
             /\ (forall k, In k (map fst groups')
                           <-> In k (map fst groups) \/ In k keys)).
  { induction keys as [ | key keys IH]; intros groups Hg; simpl.
    - split; [exact Hg | ]. split; [intros p; lia | intuition].
    - destruct (IH (count_pair key groups) (count_pair_ok _ _ Hg))
        as [Hok [Hsum Hin]].
      split; [exact Hok | ]. split.
      + intros p. rewrite Hsum, sum_where_count_pair.
        destruct (p key); simpl List.length; lia.
      + intros k. rewrite Hin, keys_count_pair. intuition. }
  destruct (H [] (conj (NoDup_nil _) (Forall_nil _))) as [[Hnd Hpos] [Hsum Hin]].
  split; [exact Hnd | ]. split; [exact Hpos | ]. split.
  - intros p. rewrite Hsum. simpl. lia.
  - intros k. rewrite Hin. simpl. intuition.
Qed.

(** The rows of a two-column grouped query. *)
Lemma grouped_rows_facts (field : LeadModel.row -> string)
    (leads : list LeadModel.row) (rows : list (string * string * Z)) :
  Permutation
    (group_count2 (map (fun lead => (field lead, LeadModel.quality lead)) leads))
    rows ->
  NoDup (map fst rows)
  /\ Forall (fun row => 0 < snd row) rows
  /\ (forall p, sum_where p rows
                = Z.of_nat
                    (List.length
                       (filter (fun lead =>
                                  p (field lead, LeadModel.quality lead))
                          leads)))
  /\ (forall k, In k (map fst rows)
                <-> exists lead,
                      In lead leads
                      /\ k = (field lead, LeadModel.quality lead)).
Proof.
  intros Hperm.
  destruct (group_count2_facts
              (map (fun lead => (field lead, LeadModel.quality lead)) leads))
    as [Hnd [Hpos [Hsum Hin]]].
  split; [ | split; [ | split]].
  - eapply Permutation_NoDup; [ | exact Hnd]. now apply Permutation_map.
  - eapply Permutation_Forall; eassumption.
  - intros p. rewrite <- (sum_where_perm p _ _ Hperm), Hsum. f_equal.
    clear. induction leads as [ | lead leads IH]; simpl; [reflexivity | ].
    destruct (p _); simpl; now rewrite IH.
  - intros k. split.
    + intros Hk.
      apply (Permutation_in _ (Permutation_sym (Permutation_map fst Hperm)))
        in Hk.
      apply Hin in Hk. apply in_map_iff in Hk.
      destruct Hk as [lead [Heq Hl]]. now exists lead.
    + intros [lead [Hl Hk]]. subst k.
      apply (Permutation_in _ (Permutation_map fst Hperm)).
      apply Hin. apply in_map_iff. exists lead. now split.
Qed.

(** Dicts. *)

Lemma dict_find_set_same {V : Type} (key : string) (v : V)
    (d : list (string * V)) :
  dict_find key (dict_set key v d) = Some v.
Proof.
  induction d as [ | [k x] d IH]; simpl.
  - now rewrite String.eqb_refl.
  - destruct (k =? key)%string eqn:E; simpl; rewrite E; [reflexivity | exact IH].
Qed.

Lemma dict_find_set_other {V : Type} (key key' : string) (v : V)
    (d : list (string * V)) :
  key <> key' -> dict_find key' (dict_set key v d) = dict_find key' d.
Proof.
  intros Hne. induction d as [ | [k x] d IH]; simpl.
  - destruct (String.eqb_spec key key'); [contradiction | reflexivity].
  - destruct (String.eqb_spec k key) as [-> | Hk]; simpl.
    + destruct (String.eqb_spec key key'); [contradiction | reflexivity].
    + now rewrite IH.
Qed.

Lemma dict_set_keys {V : Type} (key key' : string) (v : V)
    (d : list (string * V)) :
  In key' (map fst (dict_set key v d)) <-> key' = key \/ In key' (map fst d).
Proof.
  induction d as [ | [k x] d IH]; simpl.
  - intuition.
  - destruct (String.eqb_spec k key) as [-> | Hk]; simpl.
    + intuition.
    + rewrite IH. intuition.
Qed.

Lemma dict_set_NoDup {V : Type} (key : string) (v : V)
    (d : list (string * V)) :
  NoDup (map fst d) -> NoDup (map fst (dict_set key v d)).
Proof.
  induction d as [ | [k x] d IH]; simpl; intros Hnd.
  - constructor; [intros [] | constructor].
  - inversion Hnd as [ | ? ? Hnotin Hnd']; subst.
    destruct (String.eqb_spec k key) as [-> | Hk]; simpl.
    + now constructor.
    + constructor; [ | now apply IH].
      rewrite dict_set_keys. intros [-> | Hin]; [now apply Hk | ].
      now apply Hnotin.
Qed.

Lemma dict_find_In {V : Type} (key : string) (v : V) (d : list (string * V)) :
  dict_find key d = Some v -> In (key, v) d.
Proof.
  induction d as [ | [k x] d IH]; simpl; [discriminate | ].
  destruct (String.eqb_spec k key) as [-> | Hk].
  - intros H. injection H as ->. now left.
  - intros H. right. now apply IH.
Qed.

Lemma In_dict_find {V : Type} (key : string) (v : V) (d : list (string * V)) :
  NoDup (map fst d) -> In (key, v) d -> dict_find key d = Some v.
Proof.
  induction d as [ | [k x] d IH]; simpl; intros Hnd Hin; [contradiction | ].
  inversion Hnd as [ | ? ? Hnotin Hnd']; subst.
  destruct Hin as [Heq | Hin].
  - injection Heq as -> ->. now rewrite String.eqb_refl.
  - destruct (String.eqb_spec k key) as [-> | Hk]; [ | now apply IH].
    exfalso. apply Hnotin. now apply (in_map fst) in Hin.
Qed.

Lemma dict_find_keys {V : Type} (key : string) (d : list (string * V)) :
  In key (map fst d) <-> exists v, dict_find key d = Some v.
Proof.
  induction d as [ | [k x] d IH]; simpl.
  - split; [intros [] | intros [v H]; discriminate H].
  - destruct (String.eqb_spec k key) as [-> | Hk].
    + split; [intros _; now exists x | now left].
    + rewrite <- IH. intuition.
Qed.

Lemma dict_set_total (key : string) (n : Z) (d : list (string * Z)) :
  ~ In key (map fst d) ->
  Analytics.total_count (dict_set key n d) = Analytics.total_count d + n.
Proof.
  induction d as [ | [k x] d IH]; simpl; intros Hnotin; [lia | ].
  destruct (String.eqb_spec k key) as [-> | Hk]; simpl.
  - exfalso. apply Hnotin. now left.
  - rewrite IH; [lia | ]. intros Hin. apply Hnotin. now right.
Qed.

Lemma dict_set_Forall {V : Type} (P : string * V -> Prop) (key : string)
    (v : V) (d : list (string * V)) :
  (forall k, P (k, v)) -> Forall P d -> Forall P (dict_set key v d).
Proof.
  intros Hv. induction 1 as [ | [k x] d Hx Hall IH]; simpl.
  - repeat constructor. apply Hv.
  - destruct (k =? key)%string; constructor; auto.
Qed.

End BreakdownFacts.

(** ** Industry breakdown with quality *)

Section IndustryBreakdown.

Import Breakdown.

Lemma dict_set_nonempty {V : Type} (key : string) (v : V)
    (d : list (string * V)) : dict_set key v d <> [].
Proof.
  destruct d as [ | [k x] d]; simpl; [discriminate | ].
  destruct (k =? key)%string; discriminate.
Qed.

Lemma total_count_positive (qs : list (string * Z)) :
  qs <> [] -> Forall (fun e => 0 < snd e) qs -> 0 < Analytics.total_count qs.
Proof.
  intros Hne Hall. destruct Hall as [ | e qs He Hall]; [congruence | ].
  simpl. clear Hne.
  assert (0 <= Analytics.total_count qs); [ | lia].
  induction Hall as [ | e' qs He' Hall IH]; simpl; lia.
Qed.

(** One more row keeps the dict in step with the rows read so far. *)
Lemma add_quality_step (done : list (string * string * Z))
    (data : list (string * list (string * Z)))
    (i0 q0 : string) (c0 : Z) :
  0 < c0 -> ~ In (i0, q0) (map fst done) ->
  NoDup (map fst data) ->
  (forall i qs,
      dict_find i data = Some qs ->
      qs <> [] /\ Forall (fun e => 0 < snd e) qs
      /\ Analytics.total_count qs
         = sum_where (fun k => (fst k =? i)%string) done
      /\ forall q, In q (map fst qs) -> In (i, q) (map fst done)) ->
  (forall i, In i (map fst data) <-> exists q, In (i, q) (map fst done)) ->
  let data' := add_quality (i0, q0, c0) data in
  let done' := done ++ [(i0, q0, c0)] in
  NoDup (map fst data')
  /\ (forall i qs,
         dict_find i data' = Some qs ->
         qs <> [] /\ Forall (fun e => 0 < snd e) qs
         /\ Analytics.total_count qs
            = sum_where (fun k => (fst k =? i)%string) done'
         /\ forall q, In q (map fst qs) -> In (i, q) (map fst done'))
  /\ (forall i, In i (map fst data') <-> exists q, In (i, q) (map fst done')).
Proof.
  intros Hc Hnew Hnd Hinner Hkeys data' done'. subst data' done'.
  unfold add_quality.
  set (qualities := match dict_find i0 data with
                    | Some qualities => qualities
                    | None => []
                    end).
  assert (Hold : Forall (fun e => 0 < snd e) qualities
                 /\ Analytics.total_count qualities
                    = sum_where (fun k => (fst k =? i0)%string) done
                 /\ forall q, In q (map fst qualities)
                              -> In (i0, q) (map fst done)).
  { subst qualities.
    destruct (dict_find i0 data) as [qs | ] eqn:Hfind.
    - destruct (Hinner _ _ Hfind) as [_ [H1 [H2 H3]]]. auto.
    - split; [constructor | ]. split; [ | intros q []].
      simpl. symmetry. apply sum_where_none. intros [i q] Hin.
      simpl. apply String.eqb_neq. intros ->.
      assert (Hex : exists q', In (i0, q') (map fst done)) by eauto.
      apply Hkeys, dict_find_keys in Hex. destruct Hex as [v Hv]. congruence. }
  destruct Hold as [Hpos [Htot Hsub]].
  split; [now apply dict_set_NoDup | ]. split.
  - intros i qs Hfind. rewrite map_app, sum_where_app. simpl.
    destruct (String.eqb_spec i0 i) as [<- | Hne].
    + rewrite dict_find_set_same in Hfind. injection Hfind as <-.
      split; [apply dict_set_nonempty | ]. split.
      * apply dict_set_Forall; [intros k; simpl; lia | exact Hpos].
      * split.
        -- rewrite dict_set_total; [lia | ].
           intros Hin. apply Hnew. now apply Hsub.
        -- intros q Hq. apply dict_set_keys in Hq. apply in_or_app.
           destruct Hq as [-> | Hq]; [right; now left | left; now apply Hsub].
    + rewrite dict_find_set_other in Hfind by exact Hne.
      destruct (Hinner _ _ Hfind) as [H0 [H1 [H2 H3]]].
      split; [exact H0 | ]. split; [exact H1 | ]. split; [lia | ].
      intros q Hq. apply in_or_app. left. now apply H3.
  - intros i. rewrite dict_set_keys, Hkeys, map_app. simpl. split.
    + intros [-> | [q Hq]].
      * exists q0. apply in_or_app. right. now left.
      * exists q. apply in_or_app. now left.
    + intros [q Hq]. apply in_app_or in Hq.
      destruct Hq as [Hq | [Hq | []]]; [right; now exists q | ].
      injection Hq as <- _. now left.
Qed.

Lemma build_industry_data_inv (rest : list (string * string * Z)) :
  forall (done : list (string * string * Z))
         (data : list (string * list (string * Z))),
    NoDup (map fst (done ++ rest)) ->
    Forall (fun row => 0 < snd row) rest ->
    NoDup (map fst data) ->
    (forall i qs,
        dict_find i data = Some qs ->
        qs <> [] /\ Forall (fun e => 0 < snd e) qs
        /\ Analytics.total_count qs
           = sum_where (fun k => (fst k =? i)%string) done
        /\ forall q, In q (map fst qs) -> In (i, q) (map fst done)) ->
    (forall i, In i (map fst data) <-> exists q, In (i, q) (map fst done)) ->
    let data' := fold_left (fun d row => add_quality row d) rest data in
    NoDup (map fst data')
    /\ (forall i qs,
           dict_find i data' = Some qs ->
           qs <> [] /\ Forall (fun e => 0 < snd e) qs
           /\ Analytics.total_count qs
              = sum_where (fun k => (fst k =? i)%string) (done ++ rest)
           /\ forall q, In q (map fst qs) -> In (i, q) (map fst (done ++ rest)))
    /\ (forall i, In i (map fst data')
                  <-> exists q, In (i, q) (map fst (done ++ rest))).
Proof.
  induction rest as [ | [[i0 q0] c0] rest IH];
    intros done data Hnd Hpos Hd Hinner Hkeys; simpl.
  - rewrite app_nil_r. auto.
  - inversion Hpos as [ | ? ? Hc Hpos']; subst. simpl in Hc.
    assert (Hnew : ~ In (i0, q0) (map fst done)).
    { rewrite map_app in Hnd. simpl in Hnd.
      apply NoDup_remove_2 in Hnd. intros Hin. apply Hnd.
      apply in_or_app. now left. }
    destruct (add_quality_step done data i0 q0 c0 Hc Hnew Hd Hinner Hkeys)
      as [Hd' [Hinner' Hkeys']].
    replace (done ++ (i0, q0, c0) :: rest)
      with ((done ++ [(i0, q0, c0)]) ++ rest) in *
      by (rewrite <- app_assoc; reflexivity).
    now apply IH.
Qed.

Lemma breakdown_lines_ok (data : list (string * list (string * Z))) :
  (forall i qs, In (i, qs) data -> Analytics.total_count qs <> 0) ->
  exists report,
    breakdown_lines data = Ret report
    /\ Forall2
         (fun entry out =>
            fst (fst out) = fst entry
            /\ snd (fst out) = Analytics.total_count (snd entry)
            /\ map fst (snd out) = snd entry
            /\ (Analytics.sum_percentages (snd out) == 100)%Q)
         data report.
Proof.
  induction data as [ | [i qs] data IH]; intros Hnz.
  - exists []. split; [reflexivity | constructor].
  - destruct IH as [more [Hrun Hall]];
      [intros i' qs' Hin; apply (Hnz i'); now right | ].
    assert (Htot : Analytics.total_count qs <> 0)
      by (apply (Hnz i); now left).
    destruct (quality_lines_ok _ qs Htot) as [lines [Hlines [Hfst Hsum]]].
    cbn [breakdown_lines]. rewrite Hlines. cbn [bind]. rewrite Hrun.
    cbn [bind]. eexists. split; [reflexivity | ].
    constructor; [ | exact Hall]. simpl.
    split; [reflexivity | ]. split; [reflexivity | ].
    split; [exact Hfst | ].
    rewrite Hsum. field. intros Habs. apply Htot.
    unfold Qeq in Habs. simpl in Habs. lia.
Qed.

(** X20: the industry breakdown is produced for every lead table, with no
    division by zero; it lists each industry that has leads exactly once,
    with a total that is the number of leads of the industry and is the sum
    of its quality counts, and with percentages that add up to 100. *)
Theorem industry_breakdown_totals :
  forall (leads : list LeadModel.row) (rows : list (string * string * Z)),
    Breakdown.industry_quality leads rows ->
    exists report,
      Breakdown.industry_breakdown rows = Ret report
      /\ NoDup (map (fun entry => fst (fst entry)) report)
      /\ (forall industry,
            In industry (map (fun entry => fst (fst entry)) report)
            <-> In industry (map LeadModel.industry leads))
      /\ Forall
           (fun entry =>
              snd (fst entry)
              = Breakdown.leads_with LeadModel.industry (fst (fst entry)) leads
              /\ 1 <= snd (fst entry)
              /\ Analytics.total_count (map fst (snd entry)) = snd (fst entry)
              /\ (Analytics.sum_percentages (snd entry) == 100)%Q)
           report.
Proof.
  intros leads rows Hq. unfold industry_quality in Hq.
  destruct (grouped_rows_facts LeadModel.industry leads rows Hq)
    as [Hnd [Hpos [Hsum Hin]]].
  destruct (build_industry_data_inv rows [] [] Hnd Hpos (NoDup_nil _))
    as [Hd [Hinner Hkeys]].
  { intros i qs H. discriminate H. }
  { intros i. simpl. split; [intros [] | intros [q []]]. }
  simpl in Hinner, Hkeys. fold (build_industry_data rows) in Hd, Hinner, Hkeys.
  assert (Hentry : forall i qs,
             In (i, qs) (build_industry_data rows) ->
             Analytics.total_count qs = leads_with LeadModel.industry i leads
             /\ 0 < Analytics.total_count qs).
  { intros i qs Hiq. apply (In_dict_find _ _ _ Hd) in Hiq.
    destruct (Hinner _ _ Hiq) as [Hne [Hp [Htot _]]].
    split; [ | now apply total_count_positive].
    rewrite Htot, Hsum. reflexivity. }
  destruct (breakdown_lines_ok (build_industry_data rows))
    as [report [Hrun Hall]].
  { intros i qs Hiq. destruct (Hentry _ _ Hiq). lia. }
  exists report. split; [exact Hrun | ].
  assert (Hnames : map (fun entry => fst (fst entry)) report
                   = map fst (build_industry_data rows)).
  { clear - Hall. induction Hall as [ | e o d r [H _] Hall IH]; simpl;
      [reflexivity | ]. now rewrite H, IH. }
  rewrite Hnames. split; [exact Hd | ]. split.
  - intros industry. rewrite Hkeys, in_map_iff. split.
    + intros [q Hiq]. apply Hin in Hiq. destruct Hiq as [lead [Hl Heq]].
      injection Heq as -> _. now exists lead.
    + intros [lead [<- Hl]]. exists (LeadModel.quality lead).
      apply Hin. now exists lead.
  - clear Hnames Hrun. apply Forall_forall. intros out Hout.
    assert (Hex : exists entry,
               In entry (build_industry_data rows)
               /\ fst (fst out) = fst entry
               /\ snd (fst out) = Analytics.total_count (snd entry)
               /\ map fst (snd out) = snd entry
               /\ (Analytics.sum_percentages (snd out) == 100)%Q).
    { clear - Hall Hout.
      induction Hall as [ | e o d r H Hall IH]; [contradiction | ].
      destruct Hout as [<- | Hout].
      - exists e. split; [now left | exact H].
      - destruct (IH Hout) as [e' [He' H']]. exists e'.
        split; [now right | exact H']. }
    destruct Hex as [[i qs] [Hiq [H1 [H2 [H3 H4]]]]]. simpl in H1, H2, H3.
    destruct (Hentry _ _ Hiq) as [Hcount Hposn].
    rewrite H1, H2, H3. repeat split; try assumption; lia.
Qed.

Lemma industry_breakdown_totals_witness :
  let lead := fun id industry quality =>
    LeadModel.mk id "Ada" "Acme" industry 60 "PPC" 0 quality None in
  let leads :=
    [lead 1 "Finance" "High"; lead 2 "Retail" "Low"; lead 3 "Finance" "Low";
     lead 4 "Finance" "High"]%string in
  let rows :=
    [("Retail", "Low", 1); ("Finance", "Low", 1); ("Finance", "High", 2)]
      %string in
  Breakdown.industry_quality leads rows
  /\ exists report,
       Breakdown.industry_breakdown rows = Ret report
       /\ map (fun entry => fst entry) report
          = [("Retail", 1); ("Finance", 3)]%string.
Proof.
  cbv zeta.
  match goal with
  | |- ?A /\ _ =>
      assert (Ha : A)
        by (unfold Breakdown.industry_quality; cbv;
            apply Permutation_cons_append)
  end.
  split; [exact Ha | ].
  destruct (industry_breakdown_totals _ _ Ha) as [report [Hrun _]].
  exists report. split; [exact Hrun | ].
  vm_compute in Hrun. injection Hrun as <-. reflexivity.
Defined.

End IndustryBreakdown.

(** ** Source effectiveness *)

Section SourceEffectiveness.

Import Breakdown.

(** One more row keeps the dict of sources in step with the rows read so
    far, as long as no quality is the string "total". *)
Lemma add_source_step (done : list (string * string * Z))
    (data : list (string * list (string * Z)))
    (s0 q0 : string) (c0 : Z) :
  q0 <> "total"%string -> ~ In (s0, q0) (map fst done) ->
  NoDup (map fst data) ->
  (forall s d,
      dict_find s data = Some d ->
      dict_find "total" d
      = Some (sum_where (fun k => (fst k =? s)%string) done)
      /\ dict_find "High" d
         = Some (sum_where (fun k => pair_eqb k (s, "High"%string)) done)) ->
  (forall s, In s (map fst data) <-> exists q, In (s, q) (map fst done)) ->
  let done' := done ++ [(s0, q0, c0)] in
  exists data',
    add_source (s0, q0, c0) data = Ret data'
    /\ NoDup (map fst data')
    /\ (forall s d,
           dict_find s data' = Some d ->
           dict_find "total" d
           = Some (sum_where (fun k => (fst k =? s)%string) done')
           /\ dict_find "High" d
              = Some (sum_where (fun k => pair_eqb k (s, "High"%string)) done'))
    /\ (forall s, In s (map fst data') <-> exists q, In (s, q) (map fst done')).
Proof.
  intros Hq Hnew Hnd Hinner Hkeys done'. subst done'.
  unfold add_source.
  set (inner := match dict_find s0 data with
                | Some d => d
                | None => new_source
                end).
  assert (Hold : dict_find "total" inner
                 = Some (sum_where (fun k => (fst k =? s0)%string) done)
                 /\ dict_find "High" inner
                    = Some (sum_where
                              (fun k => pair_eqb k (s0, "High"%string)) done)).
  { subst inner. destruct (dict_find s0 data) as [d | ] eqn:Hfind.
    - now apply Hinner.
    - assert (Hnone : forall key, In key (map fst done) -> fst key <> s0).
      { intros [s q] Hin Heq. simpl in Heq. subst s.
        assert (Hex : exists q', In (s0, q') (map fst done)) by eauto.
        apply Hkeys, dict_find_keys in Hex. destruct Hex as [v Hv].
        congruence. }
      rewrite !sum_where_none; [split; reflexivity | | ].
      + intros key Hin. destruct (pair_eqb_spec key (s0, "High"%string))
          as [-> | _]; [ | reflexivity].
        now elim (Hnone _ Hin).
      + intros key Hin. apply String.eqb_neq. now apply Hnone. }
  destruct Hold as [Htot Hhigh].
  assert (Htot1 : dict_find "total" (dict_set q0 c0 inner)
                  = Some (sum_where (fun k => (fst k =? s0)%string) done))
    by (rewrite dict_find_set_other; assumption).
  unfold dict_int. rewrite Htot1. cbn [bind].
  eexists. split; [reflexivity | ].
  split; [now apply dict_set_NoDup | ]. split.
  - intros s d Hfind. rewrite !sum_where_app. simpl.
    destruct (String.eqb_spec s0 s) as [<- | Hne].
    + rewrite dict_find_set_same in Hfind. injection Hfind as <-.
      rewrite dict_find_set_same. split; [f_equal; lia | ].
      rewrite dict_find_set_other by discriminate.
      destruct (pair_eqb_spec (s0, q0) (s0, "High"%string)) as [Heq | Hne].
      * injection Heq as ->. rewrite dict_find_set_same. f_equal.
        rewrite (sum_where_none (fun k => pair_eqb k (s0, "High"%string)));
          [lia | ].
        intros key Hin. destruct (pair_eqb_spec key (s0, "High"%string))
          as [-> | _]; [contradiction | reflexivity].
      * rewrite dict_find_set_other by congruence.
        rewrite Hhigh. f_equal. lia.
    + rewrite dict_find_set_other in Hfind by exact Hne.
      destruct (Hinner _ _ Hfind) as [H1 H2]. rewrite H1, H2.
      destruct (pair_eqb_spec (s0, q0) (s, "High"%string)) as [Heq | _];
        [injection Heq as Heq _; contradiction | ].
      split; f_equal; lia.
  - intros s. rewrite dict_set_keys, Hkeys, map_app. simpl. split.
    + intros [-> | [q Hin]].
      * exists q0. apply in_or_app. right. now left.
      * exists q. apply in_or_app. now left.
    + intros [q Hin]. apply in_app_or in Hin.
      destruct Hin as [Hin | [Hin | []]]; [right; now exists q | ].
      injection Hin as <- _. now left.
Qed.

Lemma build_source_data_inv (rest : list (string * string * Z)) :
  forall (done : list (string * string * Z))
         (data : list (string * list (string * Z))),
    NoDup (map fst (done ++ rest)) ->
    (forall key, In key (map fst rest) -> snd key <> "total"%string) ->
    NoDup (map fst data) ->
    (forall s d,
        dict_find s data = Some d ->
        dict_find "total" d
        = Some (sum_where (fun k => (fst k =? s)%string) done)
        /\ dict_find "High" d
           = Some (sum_where (fun k => pair_eqb k (s, "High"%string)) done)) ->
    (forall s, In s (map fst data) <-> exists q, In (s, q) (map fst done)) ->
    exists data',
      build_source_data rest data = Ret data'
      /\ NoDup (map fst data')
      /\ (forall s d,
             dict_find s data' = Some d ->
             dict_find "total" d
             = Some (sum_where (fun k => (fst k =? s)%string) (done ++ rest))
             /\ dict_find "High" d
                = Some (sum_where (fun k => pair_eqb k (s, "High"%string))
                          (done ++ rest)))
      /\ (forall s, In s (map fst data')
                    <-> exists q, In (s, q) (map fst (done ++ rest))).
Proof.
  induction rest as [ | [[s0 q0] c0] rest IH];
    intros done data Hnd Hq Hd Hinner Hkeys.
  - rewrite app_nil_r. exists data. auto.
  - assert (Hnew : ~ In (s0, q0) (map fst done)).
    { rewrite map_app in Hnd. simpl in Hnd.
      apply NoDup_remove_2 in Hnd. intros Hin. apply Hnd.
      apply in_or_app. now left. }
    assert (Hq0 : q0 <> "total"%string)
      by (apply (Hq (s0, q0)); now left).
    destruct (add_source_step done data s0 q0 c0 Hq0 Hnew Hd Hinner Hkeys)
      as [data1 [Hstep [Hd1 [Hinner1 Hkeys1]]]].
    replace (done ++ (s0, q0, c0) :: rest)
      with ((done ++ [(s0, q0, c0)]) ++ rest) in *
      by (rewrite <- app_assoc; reflexivity).
    destruct (IH (done ++ [(s0, q0, c0)]) data1 Hnd) as [data' H'];
      try assumption.
    { intros key Hin. apply Hq. now right. }
    exists data'. split; [ | exact (proj2 H')].
    cbn [build_source_data]. rewrite Hstep. cbn [bind]. exact (proj1 H').
Qed.

Lemma source_lines_ok (data : list (string * list (string * Z))) :
  (forall s d, In (s, d) data ->
               exists total high,
                 dict_find "total" d = Some total
                 /\ dict_find "High" d = Some high) ->
  exists report,
    source_lines data = Ret report
    /\ Forall2
         (fun entry out =>
            fst (fst out) = fst entry
            /\ dict_find "total" (snd entry) = Some (snd (fst out))
            /\ exists high,
                 dict_find "High" (snd entry) = Some high
                 /\ snd out
                    = if snd (fst out) >? 0
                      then (inject_Z high / inject_Z (snd (fst out)) * 100)%Q
                      else 0%Q)
         data report.
Proof.
  induction data as [ | [s d] data IH]; intros Hall.
  - exists []. split; [reflexivity | constructor].
  - destruct IH as [more [Hrun Hmore]];
      [intros s' d' Hin; apply (Hall s'); now right | ].
    destruct (Hall s d) as [total [high [Ht Hh]]]; [now left | ].
    cbn [source_lines]. unfold high_rate, dict_int. rewrite Ht, Hh.
    cbn [bind].
    destruct (total >? 0) eqn:Hpos; cbn [bind]; rewrite Hrun; cbn [bind];
      (eexists; split; [reflexivity | ]);
      (constructor; [ | exact Hmore]); simpl;
      (split; [reflexivity | ]); (split; [exact Ht | ]);
      exists high; rewrite Hpos; now split.
Qed.

Lemma filter_length_le {A : Type} (p q : A -> bool) (l : list A) :
  (forall a, p a = true -> q a = true) ->
  (List.length (filter p l) <= List.length (filter q l))%nat.
Proof.
  intros Hpq. induction l as [ | a l IH]; simpl; [lia | ].
  destruct (p a) eqn:Hp.
  - rewrite (Hpq a Hp). simpl. lia.
  - destruct (q a); simpl; lia.
Qed.

(** X21: when no lead has the quality "total", the source effectiveness
    report is produced for every lead table; it lists each source that has
    leads exactly once, with the number of its leads as total, and a High
    rate that is the share of its High leads, between 0 and 100. *)
Theorem source_effectiveness_rates :
  forall (leads : list LeadModel.row) (rows : list (string * string * Z)),
    (forall lead, In lead leads -> LeadModel.quality lead <> "total"%string) ->
    Breakdown.source_quality leads rows ->
    exists report,
      Breakdown.source_effectiveness rows = Ret report
      /\ NoDup (map (fun entry => fst (fst entry)) report)
      /\ (forall source,
            In source (map (fun entry => fst (fst entry)) report)
            <-> In source (map LeadModel.source leads))
      /\ Forall
           (fun entry =>
              let source := fst (fst entry) in
              let total := snd (fst entry) in
              total = Breakdown.leads_with LeadModel.source source leads
              /\ 1 <= total
              /\ snd entry
                 = (inject_Z (Breakdown.high_leads source leads)
                    / inject_Z total * 100)%Q
              /\ (0 <= snd entry)%Q /\ (snd entry <= 100)%Q)
           report.
Proof.
  intros leads rows Hquality Hq. unfold source_quality in Hq.
  destruct (grouped_rows_facts LeadModel.source leads rows Hq)
    as [Hnd [Hpos [Hsum Hin]]].
  destruct (build_source_data_inv rows [] [] Hnd)
    as [data [Hbuild [Hd [Hinner Hkeys]]]].
  { intros [s q] Hk. apply Hin in Hk. destruct Hk as [lead [Hl Heq]].
    injection Heq as -> ->. simpl. now apply Hquality. }
  { constructor. }
  { intros s d H. discriminate H. }
  { intros s. simpl. split; [intros [] | intros [q []]]. }
  simpl in Hinner, Hkeys.
  destruct (source_lines_ok data) as [report [Hrun Hall]].
  { intros s d Hsd. apply (In_dict_find _ _ _ Hd) in Hsd.
    destruct (Hinner _ _ Hsd) as [H1 H2]. eauto. }
  exists report. split.
  { unfold source_effectiveness. rewrite Hbuild. cbn [bind]. exact Hrun. }
  assert (Hnames : map (fun entry => fst (fst entry)) report = map fst data).
  { clear - Hall. induction Hall as [ | e o d r [H _] Hall IH]; simpl;
      [reflexivity | ]. now rewrite H, IH. }
  rewrite Hnames. split; [exact Hd | ]. split.
  - intros source. rewrite Hkeys, in_map_iff. split.
    + intros [q Hsq]. apply Hin in Hsq. destruct Hsq as [lead [Hl Heq]].
      injection Heq as -> _. now exists lead.
    + intros [lead [<- Hl]]. exists (LeadModel.quality lead).
      apply Hin. now exists lead.
  - apply Forall_forall. intros out Hout.
    assert (Hex : exists entry,
               In entry data
               /\ fst (fst out) = fst entry
               /\ dict_find "total" (snd entry) = Some (snd (fst out))
               /\ exists high,
                    dict_find "High" (snd entry) = Some high
                    /\ snd out
                       = if snd (fst out) >? 0
                         then (inject_Z high / inject_Z (snd (fst out)) * 100)%Q
                         else 0%Q).
    { clear - Hall Hout.
      induction Hall as [ | e o d r H Hall IH]; [contradiction | ].
      destruct Hout as [<- | Hout].
      - exists e. split; [now left | exact H].
      - destruct (IH Hout) as [e' [He' H']]. exists e'.
        split; [now right | exact H']. }
    destruct Hex as [[s d] [Hsd [H1 [H2 [high [H3 H4]]]]]].
    simpl in H1, H2, H3.
    destruct out as [[source total] rate]. simpl in *. subst source.
    assert (Hkey : In s (map fst data))
      by (apply in_map_iff; exists (s, d); now split).
    apply (In_dict_find _ _ _ Hd) in Hsd.
    destruct (Hinner _ _ Hsd) as [Ht Hh].
    rewrite Ht in H2. injection H2 as H2. rewrite Hh in H3.
    injection H3 as H3. rewrite Hsum in H2, H3.
    assert (Htotal : total = leads_with LeadModel.source s leads)
      by (rewrite <- H2; reflexivity).
    assert (Hhigh : high = high_leads s leads)
      by (rewrite <- H3; reflexivity).
    assert (Hle : high <= total).
    { rewrite Hhigh, Htotal. unfold high_leads, leads_with.
      apply Nat2Z.inj_le. apply filter_length_le.
      intros lead Hp.
      destruct (pair_eqb_spec (LeadModel.source lead, LeadModel.quality lead)
                  (s, "High"%string)) as [Heq | ]; [ | discriminate Hp].
      injection Heq as -> _. apply String.eqb_refl. }
    assert (Hpos1 : 1 <= total).
    { apply Hkeys in Hkey. destruct Hkey as [q Hsq]. apply Hin in Hsq.
      destruct Hsq as [lead [Hl Heq]]. injection Heq as -> _.
      rewrite Htotal. unfold leads_with.
      assert (Hf : In lead
                     (filter (fun l => (LeadModel.source l
                                        =? LeadModel.source lead)%string)
                        leads))
        by (apply filter_In; split; [exact Hl | apply String.eqb_refl]).
      destruct (filter _ leads); [contradiction | simpl List.length; lia]. }
    assert (H0 : 0 <= high) by (rewrite Hhigh; unfold high_leads; lia).
    replace (total >? 0) with true in H4 by (symmetry; apply Z.gtb_lt; lia).
    split; [exact Htotal | ]. split; [exact Hpos1 | ].
    rewrite <- Hhigh. split; [exact H4 | ]. rewrite H4.
    assert (Hq0 : (0 < inject_Z total)%Q)
      by (change 0%Q with (inject_Z 0); rewrite <- Zlt_Qlt; lia).
    split.
    + apply Qmult_le_0_compat; [ | discriminate].
      apply Qle_shift_div_l; [exact Hq0 | ].
      rewrite Qmult_0_l. change 0%Q with (inject_Z 0).
      now rewrite <- Zle_Qle.
    + assert (Hr : (inject_Z high / inject_Z total <= 1)%Q).
      { apply Qle_shift_div_r; [exact Hq0 | ].
        rewrite Qmult_1_l. now rewrite <- Zle_Qle. }
      setoid_replace 100%Q with (1 * 100)%Q at 2 by ring.
      apply Qmult_le_compat_r; [exact Hr | discriminate].
Qed.

Lemma source_effectiveness_rates_witness :
  let lead := fun id source quality =>
    LeadModel.mk id "Ada" "Acme" "Finance" 60 source 0 quality None in
  let leads :=
    [lead 1 "Referral" "High"; lead 2 "PPC" "Low"; lead 3 "Referral" "Low";
     lead 4 "Referral" "High"]%string in
  let rows :=
    [("PPC", "Low", 1); ("Referral", "Low", 1); ("Referral", "High", 2)]
      %string in
  (forall l, In l leads -> LeadModel.quality l <> "total"%string)
  /\ Breakdown.source_quality leads rows
  /\ exists report,
       Breakdown.source_effectiveness rows = Ret report
       /\ map (fun entry => fst entry) report
          = [("PPC", 1); ("Referral", 3)]%string.
Proof.
  cbv zeta.
  match goal with
  | |- ?A /\ ?B /\ _ =>
      assert (Ha : A)
        by (intros l [<- | [<- | [<- | [<- | []]]]]; discriminate);
      assert (Hb : B)
        by (unfold Breakdown.source_quality; cbv;
            apply Permutation_cons_append)
  end.
  split; [exact Ha | ]. split; [exact Hb | ].
  destruct (source_effectiveness_rates _ _ Ha Hb) as [report [Hrun _]].
  exists report. split; [exact Hrun | ].
  vm_compute in Hrun. injection Hrun as <-. reflexivity.
Defined.

End SourceEffectiveness.

(** ** Totals of the action-frequency report *)

(** X22: in every result of the action-frequency query the counts add up
    to the number of stored events, and the action of every stored event
    has a row. *)
Theorem action_counts_cover_events :
  forall (events : list EventModel.row) (rows : list (string * Z)),
    Analytics.action_counts events rows ->
    Analytics.total_count rows = Z.of_nat (List.length events)
    /\ forall event,
         In event events -> In (EventModel.action event) (map fst rows).
Proof.
  intros events rows [Hperm _]. unfold Analytics.query_result in Hperm.
  destruct (group_count_facts (map EventModel.action events))
    as [Hnd [Hpos [Hcnt Htot]]].
  split.
  - rewrite <- (total_count_perm _ _ Hperm), Htot. now rewrite length_map.
  - intros event Hin.
    apply (Permutation_in _ (Permutation_map fst Hperm)).
    assert (Hocc : 0 < Spec.occurrences (EventModel.action event)
                         (map EventModel.action events)).
    { unfold Spec.occurrences.
      assert (Hf : In (EventModel.action event)
                     (filter (String.eqb (EventModel.action event))
                        (map EventModel.action events)))
        by (apply filter_In; split;
            [now apply in_map | apply String.eqb_refl]).
      destruct (filter _ _); [contradiction | simpl List.length; lia]. }
    rewrite <- Hcnt in Hocc.
    assert (Hne : Spec.count_in (EventModel.action event)
                    (Analytics.group_count (map EventModel.action events))
                  <> 0) by lia.
    apply count_in_In in Hne. now apply (in_map fst) in Hne.
Qed.

Lemma action_counts_cover_events_witness :
  let events :=
    [EventModel.mk 1 "view" JNull 0; EventModel.mk 2 "filter" JNull 0;
     EventModel.mk 3 "filter" JNull 0] in
  let rows := [("filter", 2); ("view", 1)] in
  Analytics.action_counts events rows
  /\ Analytics.total_count rows = Z.of_nat (List.length events).
Proof.
  cbv zeta.
  match goal with
  | |- ?A /\ _ =>
      assert (Ha : A)
        by (split;
            [apply perm_swap
            | repeat constructor; unfold Analytics.count_ge; simpl; lia])
  end.
  split; [exact Ha | ].
  exact (proj1 (action_counts_cover_events _ _ Ha)).
Defined.
